(** * midi-app-controller: models, YAML persistence and the connected controller

    A shallow embedding of

    - [midi_app_controller/models/utils.py]  ([find_duplicate], [YamlBaseModel]),
    - [midi_app_controller/models/binds.py]  ([ButtonBind], [KnobBind], [Binds]),
    - [midi_app_controller/models/controller.py] ([ControllerElement], [Controller]),
    - [midi_app_controller/controller/connected_controller.py]
      ([midi_callback], [ConnectedController]).

    Python integers are [Z], strings are [string], [Optional] is [option],
    dictionaries are [gmap], the [set] of [find_duplicate] is a [gset].
    A Python call either returns or raises: [result]. *)

From Stdlib Require Import ZArith Lia String Ascii List.
From stdpp Require Import base gmap sets list strings pretty.

Open Scope Z_scope.
Set Warnings "-register-all".

(** ** Exceptions and results *)

Inductive exn : Type :=
  | KeyError (key : Z)
  | IndexError
  | AttributeError (attribute : string)
  | TypeError (msg : string)
  | ValueError (msg : string)
  | AssertionError (msg : string)
  | FileNotFoundError
  | OSError (msg : string)
  | IOError (msg : string)
  | ValidationError (errors : list (string * string)).

Inductive result (A : Type) : Type :=
  | Ok (a : A)
  | Raise (e : exn).
Arguments Ok {A} a.
Arguments Raise {A} e.

Definition is_Ok {A} (r : result A) : Prop :=
  match r with Ok _ => True | Raise _ => False end.

Definition is_Raise {A} (r : result A) : Prop :=
  match r with Ok _ => False | Raise _ => True end.

(** A computation on a mutable state [S] that returns or raises; what was
    written to the state before an exception stays written. *)
Definition M (S A : Type) : Type := S → result A * S.

Definition ret {S A} (a : A) : M S A := λ s, (Ok a, s).
Definition raise {S A} (e : exn) : M S A := λ s, (Raise e, s).
Definition bind {S A B} (m : M S A) (f : A → M S B) : M S B :=
  λ s, match m s with
       | (Ok a, s') => f a s'
       | (Raise e, s') => (Raise e, s')
       end.
Definition get {S} : M S S := λ s, (Ok s, s).
Definition put {S} (s : S) : M S unit := λ _, (Ok tt, s).
Definition modify {S} (f : S → S) : M S unit := λ s, (Ok tt, f s).
Definition lift {S A} (r : result A) : M S A := λ s, (r, s).

#[export] Instance M_ret {S} : MRet (M S) := λ A, @ret S A.
#[export] Instance M_bind {S} : MBind (M S) := λ A B f m, @bind S A B m f.

(** A [for] loop over a list. *)
Fixpoint for_each {S A} (l : list A) (body : A → M S unit) : M S unit :=
  match l with
  | [] => ret tt
  | x :: l' => body x;; for_each l' body
  end.

(** Subscripting a list with a non-negative constant index. *)
Definition getitem {A} (l : list A) (i : nat) : result A :=
  match l !! i with Some x => Ok x | None => Raise IndexError end.

(** ** config.py *)

Module config.

(** A path, as the list of its components. *)
Definition Path : Type := list string.

(** The directories of [Config]; their values depend on where the package
    and the user's configuration are installed. *)
Record Config : Type := {
  BINDS_READONLY_DIR : Path;
  BINDS_USER_DIR : Path;
  CONTROLLERS_READONLY_DIR : Path;
  CONTROLLERS_USER_DIR : Path;
  APP_STATE_FILE : Path
}.

Definition BINDS_DIRS (c : Config) : list Path :=
  [BINDS_READONLY_DIR c; BINDS_USER_DIR c].
Definition CONTROLLER_DIRS (c : Config) : list Path :=
  [CONTROLLERS_READONLY_DIR c; CONTROLLERS_USER_DIR c].

End config.

(** ** models/utils.py: [find_duplicate] *)

Module utils.

Section find_duplicate.
Context {A : Type} `{Countable A}.

(** The [for] loop of [find_duplicate], entered with the set [seen]. *)
Fixpoint find_duplicate_loop (seen : gset A) (values : list A) : option A :=
  match values with
  | [] => None
  | val :: values' =>
      if decide (val ∈ seen) then Some val
      else find_duplicate_loop ({[val]} ∪ seen) values'
  end.

Definition find_duplicate (values : list A) : option A :=
  find_duplicate_loop ∅ values.

End find_duplicate.

(** *** What [yaml.safe_load] returns and [yaml.safe_dump] takes *)

Inductive yaml_value : Type :=
  | YNull
  | YBool (b : bool)
  | YInt (z : Z)
  | YStr (s : string)
  | YList (items : list yaml_value)
  | YDict (items : list (string * yaml_value)).

(** The PyYAML library: the text of a document is left abstract. *)
Class Yaml : Type := {
  document : Type;
  safe_dump : yaml_value → document;
  safe_load : document → result yaml_value
}.

(** [d.get(key)] on the items of a dictionary. *)
Fixpoint dict_get (key : string) (items : list (string * yaml_value))
  : option yaml_value :=
  match items with
  | [] => None
  | (k, v) :: items' => if decide (k = key) then Some v else dict_get key items'
  end.

(** pydantic's reading of a [str] field: integers and booleans are
    converted with [str]. *)
Definition as_str (v : yaml_value) : option string :=
  match v with
  | YStr s => Some s
  | YInt z => Some (pretty z)
  | YBool true => Some "True"
  | YBool false => Some "False"
  | _ => None
  end.

(** pydantic's reading of an [int] field. A string that spells a number is
    converted too by pydantic; that conversion is left out here, and no
    statement below is about such a document. *)
Definition as_int (v : yaml_value) : option Z :=
  match v with
  | YInt z => Some z
  | YBool true => Some 1
  | YBool false => Some 0
  | _ => None
  end.

Definition as_list (v : yaml_value) : option (list yaml_value) :=
  match v with YList items => Some items | _ => None end.

Definition as_dict (v : yaml_value) : option (list (string * yaml_value)) :=
  match v with YDict items => Some items | _ => None end.

(** A required field of type [T]. *)
Definition required {T} (read : yaml_value → option T) (key : string)
    (items : list (string * yaml_value)) : option T :=
  dict_get key items ≫= read.

(** A field of type [Optional[T]]: absent or null is [None]. *)
Definition optional {T} (read : yaml_value → option T) (key : string)
    (items : list (string * yaml_value)) : option (option T) :=
  match dict_get key items with
  | None | Some YNull => Some None
  | Some v => Some <$> read v
  end.

(** A field of type [List[T]]. *)
Definition list_of {T} (read : yaml_value → option T) (v : yaml_value)
  : option (list T) :=
  as_list v ≫= mapM read.

Definition dump_optional {T} (dump : T → yaml_value) (o : option T) : yaml_value :=
  match o with Some x => dump x | None => YNull end.

(** The interface of a model class: [self.dict()] and the constructor call
    on the keyword arguments of a dictionary. *)
Class YamlBaseModel (Model : Type) : Type := {
  dict : Model → yaml_value;
  construct : list (string * yaml_value) → result Model
}.

(** *** pathlib *)

Import config.

Definition path_name (p : Path) : string := default "" (last p).
Definition path_parent (p : Path) : Path := take (length p - 1) p.

(** [p / name] for a single component. *)
Definition joinpath (p : Path) (name : string) : Path :=
  if decide (name = "") then p else p ++ [name].

(** [str.rfind] of one character. *)
Fixpoint rfind (c : ascii) (s : string) : option nat :=
  match s with
  | EmptyString => None
  | String a s' =>
      match rfind c s' with
      | Some i => Some (S i)
      | None => if Ascii.eqb a c then Some 0%nat else None
      end
  end.

(** The index at which the suffix of a file name starts, if it has one:
    [0 < i < len(name) - 1] for [i = name.rfind('.')]. *)
Definition suffix_index (name : string) : option nat :=
  match rfind "." name with
  | Some i => if (0 <? i)%nat && (i <? String.length name - 1)%nat then Some i else None
  | None => None
  end.

Definition path_suffix (p : Path) : string :=
  let name := path_name p in
  match suffix_index name with
  | Some i => substring i (String.length name - i) name
  | None => ""
  end.

Definition path_stem (p : Path) : string :=
  let name := path_name p in
  match suffix_index name with
  | Some i => substring 0 i name
  | None => name
  end.

Definition with_name (p : Path) (name : string) : result Path :=
  if decide (path_name p = "") then Raise (ValueError "path has an empty name")
  else Ok (path_parent p ++ [name]).

Definition with_stem (p : Path) (stem : string) : result Path :=
  with_name p (stem +:+ path_suffix p).

(** *** The file system: the directories and the files with their text

    Every entry is kept under the list of the names that lead to it: names
    are compared as they are written, there are no links, and every
    directory may be written to. *)

Inductive node (document : Type) : Type :=
  | Dir
  | File (text : document).
Arguments Dir {document}.
Arguments File {document} text.

Abbreviation filesystem := (gmap Path (node document)).

Section YamlBaseModel.
Context `{Yaml}.

(** [path.is_dir()]: the empty path is the current directory. *)
Definition is_dir (fs : filesystem) (p : Path) : bool :=
  bool_decide (p = []) ||
  match fs !! p with Some Dir => true | _ => false end.

(** [path.exists()]. The component [..] is not an entry of a directory:
    pathlib keeps it in the path, also as [path.name], and the system
    resolves it, so that [d / '..'] exists exactly when [d] is a directory.
    The methods below can put a [..] only in the last place (the [path.name]
    that [save_copy_to] appends to [new_dir]), and that is where it is
    resolved here; the directories themselves are taken to be given without
    [..] components. *)
Definition path_exists (fs : filesystem) (p : Path) : bool :=
  if decide (path_name p = "..") then is_dir fs (path_parent p)
  else bool_decide (p = []) || bool_decide (is_Some (fs !! p)).

(** [mkdir(parents=True, exist_ok=True)], one component after the other. *)
Fixpoint mkdir_from (made : Path) (todo : list string) : M filesystem unit :=
  match todo with
  | [] => ret tt
  | c :: todo' =>
      let q := made ++ [c] in
      fs ← get;
      match fs !! q with
      | None => put (<[q := Dir]> fs);; mkdir_from q todo'
      | Some Dir => mkdir_from q todo'
      | Some (File _) => raise (OSError "not a directory")
      end
  end.

Definition mkdir (p : Path) : M filesystem unit := mkdir_from [] p.

(** [open(path, 'w')] followed by writing the whole text. A path that ends
    in [..] names a directory (or nothing at all), never a file that can be
    opened for writing. *)
Definition write_text (p : Path) (text : document) : M filesystem unit :=
  fs ← get;
  if decide (path_name p = "..") then raise (OSError "is a directory")
  else
    match p, fs !! p with
    | [], _ => raise (OSError "is a directory")
    | _, Some Dir => raise (OSError "is a directory")
    | _, _ => put (<[p := File text]> fs)
    end.

(** [open(path)] followed by reading the whole text. *)
Definition read_text (fs : filesystem) (p : Path) : result document :=
  match fs !! p with
  | Some (File text) => Ok text
  | Some Dir => Raise (OSError "is a directory")
  | None => if decide (p = []) then Raise (OSError "is a directory")
            else Raise FileNotFoundError
  end.

(** [is_subpath] (gui/utils.py) and the installed [Config] are taken from
    the environment; [uuid1 k] is the k-th value [uuid.uuid1()] yields. *)
Variable is_subpath : Path → Path → bool.
Variable Config : config.Config.
Variable uuid1 : nat → string.

Context {Model : Type} `{YamlBaseModel Model}.

Definition call_constructor (data : yaml_value) : result Model :=
  match data with
  | YDict items => construct items
  | _ => Raise (TypeError "argument after ** must be a mapping")
  end.

Definition load_from (path : Path) (fs : filesystem) : result Model :=
  match read_text fs path with
  | Raise e => Raise e
  | Ok text =>
      match safe_load text with
      | Raise e => Raise e
      | Ok YNull => Raise (AssertionError "Empty file")
      | Ok data => call_constructor data
      end
  end.

Definition save_to (self : Model) (path : Path) : M filesystem unit :=
  if is_subpath (BINDS_READONLY_DIR Config) path then raise (AssertionError "")
  else if is_subpath (CONTROLLERS_READONLY_DIR Config) path then raise (AssertionError "")
  else
    mkdir (path_parent path);;
    write_text path (safe_dump (dict self)).

(** The [while] loop of [save_copy_to]; [k] counts the uuids drawn so far.
    [None]: more than [fuel] candidates exist already. *)
Fixpoint free_path (fuel : nat) (fs : filesystem) (new_path : Path) (k : nat)
  : option (result Path) :=
  if path_exists fs new_path then
    match fuel with
    | O => None
    | S fuel' =>
        match with_stem new_path (path_stem new_path +:+ " " +:+ uuid1 k) with
        | Ok new_path' => free_path fuel' fs new_path' (S k)
        | Raise e => Some (Raise e)
        end
    end
  else Some (Ok new_path).


(** The entries whose name has at least [n] characters: the measure that
    bounds the loop. *)
Definition long_names (fs : filesystem) (n : nat) : gset Path :=
  filter (λ q, (n ≤ String.length (path_name q))%nat) (dom fs).

(** The loop tries names of growing length, so it ends before it has tried
    more candidates than the file system has entries. *)
Definition save_copy_to (self : Model) (path new_dir : Path) : M filesystem Path :=
  fs ← get;
  let new_path := joinpath new_dir (path_name path) in
  match free_path (S (size fs)) fs new_path 0 with
  | Some (Ok new_path) => save_to self new_path;; ret new_path
  | Some (Raise e) => raise e
  | None => raise (OSError "no free name found")
  end.

(** [str.lower] on a file name. Only the letters A to Z matter for the test
    that follows: no other character becomes a letter of [.yaml] or [.yml]. *)
Definition lower_ascii (c : ascii) : ascii :=
  let n := nat_of_ascii c in
  if (65 <=? n)%nat && (n <=? 90)%nat then ascii_of_nat (n + 32) else c.

Fixpoint lower (s : string) : string :=
  match s with
  | EmptyString => EmptyString
  | String c s' => String (lower_ascii c) (lower s')
  end.

Definition endswith (s suffix : string) : bool :=
  let n := String.length s in
  let m := String.length suffix in
  (m <=? n)%nat && String.eqb (substring (n - m) m s) suffix.

(** [filename.lower().endswith((".yaml", ".yml"))] *)
Definition is_yaml_name (filename : string) : bool :=
  endswith (lower filename) ".yaml" || endswith (lower filename) ".yml".

(** [os.listdir]: the names of the entries of a directory, in an order the
    caller cannot choose (here the order of the entries of the map). *)
Definition listdir (fs : filesystem) (directory : Path) : result (list string) :=
  let names :=
    omap (λ entry : Path * node document,
            if decide (entry.1 ≠ [] ∧ path_parent entry.1 = directory)
            then Some (path_name entry.1) else None)
         (map_to_list fs) in
  match fs !! directory with
  | Some (File _) => Raise (OSError "not a directory")
  | Some Dir => Ok names
  | None => if decide (directory = []) then Ok names else Raise FileNotFoundError
  end.

(** The inner loop of the comprehension of [load_all_from]. *)
Fixpoint load_files (fs : filesystem) (directory : Path) (filenames : list string)
  : result (list (Model * Path)) :=
  match filenames with
  | [] => Ok []
  | filename :: filenames' =>
      if is_yaml_name filename then
        match load_from (joinpath directory filename) fs with
        | Raise e => Raise e
        | Ok model =>
            match load_files fs directory filenames' with
            | Raise e => Raise e
            | Ok models => Ok ((model, joinpath directory filename) :: models)
            end
        end
      else load_files fs directory filenames'
  end.

Fixpoint load_all_from (directories : list Path) (fs : filesystem)
  : result (list (Model * Path)) :=
  match directories with
  | [] => Ok []
  | directory :: directories' =>
      if path_exists fs directory then
        match listdir fs directory with
        | Raise e => Raise e
        | Ok filenames =>
            match load_files fs directory filenames with
            | Raise e => Raise e
            | Ok models =>
                match load_all_from directories' fs with
                | Raise e => Raise e
                | Ok models' => Ok (models ++ models')
                end
            end
        end
      else load_all_from directories' fs
  end.

End YamlBaseModel.

End utils.

(** ** pydantic field constraints used by the models *)

Module pydantic.

(** [Field(ge=..., le=...)] on an [int] field. *)
Definition ge_le (ge le v : Z) : bool := (ge <=? v) && (v <=? le).

(** [Field(min_length=...)] on a [str] field. *)
Definition min_length (n : nat) (s : string) : bool :=
  (n <=? String.length s)%nat.

(** One line of a [ValidationError]: the location and the message. *)
Definition error_item : Type := string * string.

Definition field_error (ok : bool) (loc msg : string) : list error_item :=
  if ok then [] else [(loc, msg)].

(** A root validator that raised contributes one error at [__root__];
    pydantic collects [ValueError], [TypeError] and [AssertionError]. *)
Definition root_error {A} (r : result A) : list error_item :=
  match r with
  | Ok _ => []
  | Raise (ValueError msg) => [("__root__", msg)]
  | Raise (TypeError msg) => [("__root__", msg)]
  | Raise (AssertionError msg) => [("__root__", msg)]
  | Raise _ => [("__root__", "")]
  end.

(** The end of validation: the model, or all the errors in one exception. *)
Definition validated {A} (errors : list error_item) (data : A) : result A :=
  match errors with
  | [] => Ok data
  | _ => Raise (ValidationError errors)
  end.

(** The values a root validator receives after it: unchanged when it raised. *)
Definition root_values {A} (before : A) (r : result A) : A :=
  match r with Ok after => after | Raise _ => before end.

End pydantic.

(** ** models/binds.py *)

Module binds.
Import utils pydantic.

Record ButtonBind : Type := {
  button_id : Z;          (* Field(ge=0, le=127) *)
  action_id : string
}.

Record KnobBind : Type := {
  knob_id : Z;            (* Field(ge=0, le=127) *)
  action_id_increase : option string;
  action_id_decrease : option string
}.

Record Binds : Type := {
  name : string;          (* Field(min_length=1) *)
  description : option string;
  app_name : string;      (* Field(min_length=1) *)
  controller_name : string;
  button_binds : list ButtonBind;
  knob_binds : list KnobBind
}.

(** Construction of the nested models: only the id carries a constraint. *)
Definition ButtonBind_init (b : ButtonBind) : result ButtonBind :=
  validated (field_error (ge_le 0 127 (button_id b)) "button_id" "out of range") b.

Definition KnobBind_init (k : KnobBind) : result KnobBind :=
  validated (field_error (ge_le 0 127 (knob_id k)) "knob_id" "out of range") k.

(** The [values] dictionary handed to the root validator: a field that failed
    its own validation is absent, so [values.get] gives [None] for it. *)
Record values : Type := {
  get_button_binds : option (list ButtonBind);
  get_knob_binds : option (list KnobBind)
}.

Definition check_duplicate_ids (vs : values) : result values :=
  match get_button_binds vs, get_knob_binds vs with
  | Some bbs, Some kbs =>
      let button_ids := map button_id bbs in
      let knob_ids := map knob_id kbs in
      match find_duplicate (button_ids ++ knob_ids) with
      | Some duplicate =>
          Raise (ValueError ("id=" +:+ pretty duplicate +:+ " was bound to multiple actions"))
      | None => Ok vs
      end
  | _, _ => Raise (TypeError "'NoneType' object is not iterable")
  end.

Definition button_binds_ok (bbs : list ButtonBind) : bool :=
  forallb (λ b, ge_le 0 127 (button_id b)) bbs.

Definition knob_binds_ok (kbs : list KnobBind) : bool :=
  forallb (λ k, ge_le 0 127 (knob_id k)) kbs.

(** The constructor call of [Binds] on keyword data: every field is validated and the errors collected, then
    the root validator runs on the fields that passed; any error raises. *)
Definition Binds_init (data : Binds) : result Binds :=
  let field_errors :=
    field_error (min_length 1 (name data)) "name" "too short" ++
    field_error (min_length 1 (app_name data)) "app_name" "too short" ++
    field_error (button_binds_ok (button_binds data)) "button_binds" "out of range" ++
    field_error (knob_binds_ok (knob_binds data)) "knob_binds" "out of range" in
  let vs := {|
    get_button_binds :=
      if button_binds_ok (button_binds data) then Some (button_binds data) else None;
    get_knob_binds :=
      if knob_binds_ok (knob_binds data) then Some (knob_binds data) else None |} in
  validated (field_errors ++ root_error (check_duplicate_ids vs)) data.

(** All ids of a bind set, buttons first: the list the root validator scans. *)
Definition bound_ids (data : Binds) : list Z :=
  map button_id (button_binds data) ++ map knob_id (knob_binds data).

(** The declared constraints, as a proposition. *)
Definition Binds_valid (data : Binds) : Prop :=
  name data ≠ "" ∧ app_name data ≠ "" ∧
  (∀ b, b ∈ button_binds data → 0 ≤ button_id b ≤ 127) ∧
  (∀ k, k ∈ knob_binds data → 0 ≤ knob_id k ≤ 127) ∧
  NoDup (bound_ids data).

Definition with_controller_name (data : Binds) (s : string) : Binds :=
  {| name := name data; description := description data;
     app_name := app_name data; controller_name := s;
     button_binds := button_binds data; knob_binds := knob_binds data |}.

(** [self.dict()], nested models included. *)
Definition ButtonBind_dict (b : ButtonBind) : yaml_value :=
  YDict [("button_id", YInt (button_id b)); ("action_id", YStr (action_id b))].

Definition KnobBind_dict (k : KnobBind) : yaml_value :=
  YDict [("knob_id", YInt (knob_id k));
         ("action_id_increase", dump_optional YStr (action_id_increase k));
         ("action_id_decrease", dump_optional YStr (action_id_decrease k))].

Definition Binds_dict (self : Binds) : yaml_value :=
  YDict [("name", YStr (name self));
         ("description", dump_optional YStr (description self));
         ("app_name", YStr (app_name self));
         ("controller_name", YStr (controller_name self));
         ("button_binds", YList (map ButtonBind_dict (button_binds self)));
         ("knob_binds", YList (map KnobBind_dict (knob_binds self)))].

(** The keyword arguments read at the types of the fields. A nested model
    is read from a mapping, which is what [dict] writes; pydantic would also
    take a list of key and value pairs for it. *)
Definition ButtonBind_read (v : yaml_value) : option ButtonBind :=
  items ← as_dict v;
  i ← required as_int "button_id" items;
  a ← required as_str "action_id" items;
  Some {| button_id := i; action_id := a |}.

Definition KnobBind_read (v : yaml_value) : option KnobBind :=
  items ← as_dict v;
  i ← required as_int "knob_id" items;
  inc ← optional as_str "action_id_increase" items;
  dec ← optional as_str "action_id_decrease" items;
  Some {| knob_id := i; action_id_increase := inc; action_id_decrease := dec |}.

Definition Binds_read (items : list (string * yaml_value)) : option Binds :=
  n ← required as_str "name" items;
  d ← optional as_str "description" items;
  a ← required as_str "app_name" items;
  c ← required as_str "controller_name" items;
  bbs ← required (list_of ButtonBind_read) "button_binds" items;
  kbs ← required (list_of KnobBind_read) "knob_binds" items;
  Some {| name := n; description := d; app_name := a; controller_name := c;
          button_binds := bbs; knob_binds := kbs |}.

(** The constructor call on keyword arguments. pydantic first reads every
    argument at the type of its field, with the conversions it allows, and
    then checks the constraints and runs the root validators on what it has
    read; an argument that is missing or cannot be read is a
    [ValidationError] as well. The reading is the parameter [read]. *)
Definition Binds_construct_with (read : list (string * yaml_value) → option Binds)
    (items : list (string * yaml_value)) : result Binds :=
  match read items with
  | Some data => Binds_init data
  | None => Raise (ValidationError [("", "missing field or wrong type")])
  end.

Definition Binds_model_with (read : list (string * yaml_value) → option Binds)
  : YamlBaseModel Binds :=
  {| dict := Binds_dict; construct := Binds_construct_with read |}.

(** The constructor with the reading [Binds_read] above. It reads what
    [dict] writes; among the conversions of pydantic it has those of
    integers and booleans, not that of a string that spells a number nor
    that of a list of pairs given for a nested model. *)
Definition Binds_construct (items : list (string * yaml_value)) : result Binds :=
  Binds_construct_with Binds_read items.

#[global] Instance Binds_model : YamlBaseModel Binds :=
  {| dict := Binds_dict; construct := Binds_construct |}.

End binds.

(** ** models/controller.py *)

Module controller.
Import utils pydantic.

Record ControllerElement : Type := {
  id : Z;                 (* Field(ge=0, le=127) *)
  element_name : string   (* the field [name] of ControllerElement, Field(min_length=1) *)
}.

Record Controller : Type := {
  name : string;          (* Field(min_length=1) *)
  button_value_off : Z;   (* Field(ge=0, le=127) *)
  button_value_on : Z;    (* Field(ge=0, le=127) *)
  knob_value_min : Z;     (* Field(ge=0, le=127) *)
  knob_value_max : Z;     (* Field(ge=0, le=127) *)
  buttons : list ControllerElement;
  knobs : list ControllerElement
}.

Definition ControllerElement_ok (e : ControllerElement) : bool :=
  ge_le 0 127 (id e) && min_length 1 (element_name e).

(** The validator [check_duplicate_names] of the fields [buttons] and [knobs]. *)
Definition check_duplicate_names (v : list ControllerElement)
  : result (list ControllerElement) :=
  let names := map element_name v in
  match find_duplicate names with
  | Some duplicate =>
      Raise (ValueError ("name=" +:+ duplicate +:+ " was used for multiple elements"))
  | None => Ok v
  end.

(** Validation of one of the list fields: every element, then the validator. *)
Definition elements_field (v : list ControllerElement)
  : option (list ControllerElement) :=
  if forallb ControllerElement_ok v then
    match check_duplicate_names v with Ok v' => Some v' | Raise _ => None end
  else None.

(** The [values] dictionary of the root validators: a field that failed its
    own validation is absent, and [values.get] gives [None] for it. *)
Record values : Type := {
  get_button_value_off : option Z;
  get_button_value_on : option Z;
  get_knob_value_min : option Z;
  get_knob_value_max : option Z;
  get_buttons : option (list ControllerElement);
  get_knobs : option (list ControllerElement)
}.

Definition check_duplicate_ids (vs : values) : result values :=
  match get_buttons vs, get_knobs vs with
  | Some bs, Some ks =>
      let button_ids := map id bs in
      let knob_ids := map id ks in
      match find_duplicate button_ids with
      | Some duplicate =>
          Raise (ValueError ("id=" +:+ pretty duplicate +:+ " was used for multiple buttons"))
      | None =>
          match find_duplicate knob_ids with
          | Some duplicate =>
              Raise (ValueError ("id=" +:+ pretty duplicate +:+ " was used for multiple knobs"))
          | None => Ok vs
          end
      end
  | _, _ => Raise (TypeError "'NoneType' object is not iterable")
  end.

(** [==] on two results of [values.get]. *)
Definition check_button_values (vs : values) : result values :=
  if decide (get_button_value_off vs = get_button_value_on vs)
  then Raise (ValueError "button_value_off and button_value_on are equal")
  else Ok vs.

(** [>=] is defined on two integers only. *)
Definition check_knob_values (vs : values) : result values :=
  match get_knob_value_min vs, get_knob_value_max vs with
  | Some lo, Some hi =>
      if lo >=? hi
      then Raise (ValueError "knob_value_min must be smaller than knob_value_max")
      else Ok vs
  | _, _ => Raise (TypeError "'>=' not supported between instances")
  end.

Definition int_field (v : Z) : option Z := if ge_le 0 127 v then Some v else None.

(** The constructor call of [Controller] on keyword data: field errors are
    collected, the three root validators run in the order of the class body,
    each on the values the one before returned, and any error raises. *)
Definition Controller_init (data : Controller) : result Controller :=
  let vs := {|
    get_button_value_off := int_field (button_value_off data);
    get_button_value_on := int_field (button_value_on data);
    get_knob_value_min := int_field (knob_value_min data);
    get_knob_value_max := int_field (knob_value_max data);
    get_buttons := elements_field (buttons data);
    get_knobs := elements_field (knobs data) |} in
  let field_errors :=
    field_error (min_length 1 (name data)) "name" "too short" ++
    field_error (bool_decide (is_Some (get_button_value_off vs))) "button_value_off" "out of range" ++
    field_error (bool_decide (is_Some (get_button_value_on vs))) "button_value_on" "out of range" ++
    field_error (bool_decide (is_Some (get_knob_value_min vs))) "knob_value_min" "out of range" ++
    field_error (bool_decide (is_Some (get_knob_value_max vs))) "knob_value_max" "out of range" ++
    field_error (bool_decide (is_Some (get_buttons vs))) "buttons" "invalid" ++
    field_error (bool_decide (is_Some (get_knobs vs))) "knobs" "invalid" in
  let r1 := check_duplicate_ids vs in
  let vs1 := root_values vs r1 in
  let r2 := check_button_values vs1 in
  let vs2 := root_values vs1 r2 in
  let r3 := check_knob_values vs2 in
  validated (field_errors ++ root_error r1 ++ root_error r2 ++ root_error r3) data.

(** The declared constraints, as a proposition. *)
Definition Controller_valid (data : Controller) : Prop :=
  name data ≠ "" ∧
  0 ≤ button_value_off data ≤ 127 ∧ 0 ≤ button_value_on data ≤ 127 ∧
  0 ≤ knob_value_min data ≤ 127 ∧ 0 ≤ knob_value_max data ≤ 127 ∧
  (∀ e, e ∈ buttons data ++ knobs data → 0 ≤ id e ≤ 127 ∧ element_name e ≠ "") ∧
  NoDup (map id (buttons data)) ∧ NoDup (map id (knobs data)) ∧
  NoDup (map element_name (buttons data)) ∧ NoDup (map element_name (knobs data)) ∧
  button_value_off data ≠ button_value_on data ∧
  knob_value_min data < knob_value_max data.

Definition ControllerElement_dict (e : ControllerElement) : yaml_value :=
  YDict [("id", YInt (id e)); ("name", YStr (element_name e))].

Definition Controller_dict (self : Controller) : yaml_value :=
  YDict [("name", YStr (name self));
         ("button_value_off", YInt (button_value_off self));
         ("button_value_on", YInt (button_value_on self));
         ("knob_value_min", YInt (knob_value_min self));
         ("knob_value_max", YInt (knob_value_max self));
         ("buttons", YList (map ControllerElement_dict (buttons self)));
         ("knobs", YList (map ControllerElement_dict (knobs self)))].

Definition ControllerElement_read (v : yaml_value) : option ControllerElement :=
  items ← as_dict v;
  i ← required as_int "id" items;
  n ← required as_str "name" items;
  Some {| id := i; element_name := n |}.

Definition Controller_read (items : list (string * yaml_value)) : option Controller :=
  n ← required as_str "name" items;
  off ← required as_int "button_value_off" items;
  on ← required as_int "button_value_on" items;
  lo ← required as_int "knob_value_min" items;
  hi ← required as_int "knob_value_max" items;
  bs ← required (list_of ControllerElement_read) "buttons" items;
  ks ← required (list_of ControllerElement_read) "knobs" items;
  Some {| name := n; button_value_off := off; button_value_on := on;
          knob_value_min := lo; knob_value_max := hi; buttons := bs; knobs := ks |}.

(** The constructor call on keyword arguments, with the reading of the
    arguments at the types of the fields as the parameter [read]. *)
Definition Controller_construct_with
    (read : list (string * yaml_value) → option Controller)
    (items : list (string * yaml_value)) : result Controller :=
  match read items with
  | Some data => Controller_init data
  | None => Raise (ValidationError [("", "missing field or wrong type")])
  end.

Definition Controller_model_with
    (read : list (string * yaml_value) → option Controller)
  : YamlBaseModel Controller :=
  {| dict := Controller_dict; construct := Controller_construct_with read |}.

Definition Controller_construct (items : list (string * yaml_value))
  : result Controller :=
  Controller_construct_with Controller_read items.

#[global] Instance Controller_model : YamlBaseModel Controller :=
  {| dict := Controller_dict; construct := Controller_construct |}.

End controller.

(** ** controller/connected_controller.py *)

Module connected_controller.
Import controller.

(** [ControllerConstants] (controller_constants.py): the command bytes. *)
Record ControllerConstants : Type := {
  BUTTON_ENGAGED_COMMAND : Z;
  BUTTON_DISENGAGED_COMMAND : Z;
  KNOB_VALUE_CHANGE_COMMAND : Z;
  BUTTON_VALUE_CHANGE_ON_COMMAND : Z;
  BUTTON_VALUE_CHANGE_OFF_COMMAND : Z
}.

(** The calls an [ActionsHandler] (actions/actions_handler.py) receives. *)
Inductive handler_call : Type :=
  | handle_button_action (button_id : Z)
  | handle_knob_action (knob_id old_value new_value : Z).

Record ActionsHandler : Type := { calls : list handler_call }.

(** The rtmidi ports: the index of the opened port, what was handed to
    [send_message], in order, and whether a callback is registered. *)
Record MidiOut : Type := {
  out_port : option nat;
  send_message_calls : list (list Z)
}.
Record MidiIn : Type := {
  in_port : option nat;
  callback_set : bool
}.

Record ConnectedController : Type := {
  controller : Controller;
  actions_handler : ActionsHandler;
  midi_in : MidiIn;
  midi_out : MidiOut;
  button_ids : list Z;
  button_engagement : gmap Z Z;
  knob_ids : list Z;
  knob_engagement : gmap Z Z
}.

(** The value of an attribute of the model. *)
Inductive attribute : Type :=
  | AController (c : Controller)
  | AActionsHandler (h : ActionsHandler)
  | AMidiIn (m : MidiIn)
  | AMidiOut (m : MidiOut)
  | AList (l : list Z)
  | ADict (d : gmap Z Z).

(** [self.<name>]: the declared fields, and [AttributeError] for any other
    name. *)
Definition getattr (self : ConnectedController) (name : string) : result attribute :=
  if decide (name = "controller") then Ok (AController (controller self))
  else if decide (name = "actions_handler") then Ok (AActionsHandler (actions_handler self))
  else if decide (name = "midi_in") then Ok (AMidiIn (midi_in self))
  else if decide (name = "midi_out") then Ok (AMidiOut (midi_out self))
  else if decide (name = "button_ids") then Ok (AList (button_ids self))
  else if decide (name = "button_engagement") then Ok (ADict (button_engagement self))
  else if decide (name = "knob_ids") then Ok (AList (knob_ids self))
  else if decide (name = "knob_engagement") then Ok (ADict (knob_engagement self))
  else Raise (AttributeError name).

Definition set_actions_handler (h : ActionsHandler) (self : ConnectedController)
  : ConnectedController :=
  {| controller := controller self; actions_handler := h;
     midi_in := midi_in self; midi_out := midi_out self;
     button_ids := button_ids self; button_engagement := button_engagement self;
     knob_ids := knob_ids self; knob_engagement := knob_engagement self |}.

Definition set_midi_out (m : MidiOut) (self : ConnectedController)
  : ConnectedController :=
  {| controller := controller self; actions_handler := actions_handler self;
     midi_in := midi_in self; midi_out := m;
     button_ids := button_ids self; button_engagement := button_engagement self;
     knob_ids := knob_ids self; knob_engagement := knob_engagement self |}.

Definition set_midi_in (m : MidiIn) (self : ConnectedController)
  : ConnectedController :=
  {| controller := controller self; actions_handler := actions_handler self;
     midi_in := m; midi_out := midi_out self;
     button_ids := button_ids self; button_engagement := button_engagement self;
     knob_ids := knob_ids self; knob_engagement := knob_engagement self |}.

Definition set_button_engagement (d : gmap Z Z) (self : ConnectedController)
  : ConnectedController :=
  {| controller := controller self; actions_handler := actions_handler self;
     midi_in := midi_in self; midi_out := midi_out self;
     button_ids := button_ids self; button_engagement := d;
     knob_ids := knob_ids self; knob_engagement := knob_engagement self |}.

Definition set_knob_engagement (d : gmap Z Z) (self : ConnectedController)
  : ConnectedController :=
  {| controller := controller self; actions_handler := actions_handler self;
     midi_in := midi_in self; midi_out := midi_out self;
     button_ids := button_ids self; button_engagement := button_engagement self;
     knob_ids := knob_ids self; knob_engagement := d |}.

(** A method call [<attribute>.<method>(...)] on the handler: the call is
    recorded on the handler the attribute holds. *)
Definition call_handler (name : string) (c : handler_call)
  : M ConnectedController unit :=
  self ← get;
  a ← lift (getattr self name);
  match a with
  | AActionsHandler h =>
      put (set_actions_handler {| calls := calls h ++ [c] |} self)
  | _ => raise (AttributeError "handler method")
  end.

(** [d[key]] on a dictionary. *)
Definition dict_getitem (d : gmap Z Z) (key : Z) : result Z :=
  match d !! key with Some v => Ok v | None => Raise (KeyError key) end.

(** The name [id] where the function binds no such variable: the builtin. *)
Inductive pyobject : Type :=
  | PyInt (z : Z)
  | PyBuiltinFunction (name : string).

Definition builtin_id : pyobject := PyBuiltinFunction "id".

(** [x in l] for a list of integers: a function equals no integer. *)
Definition py_in (x : pyobject) (l : list Z) : bool :=
  match x with
  | PyInt z => bool_decide (z ∈ l)
  | PyBuiltinFunction _ => false
  end.

(** A positional argument of a call. *)
Inductive argument : Type :=
  | ArgInt (z : Z)
  | ArgList (l : list Z).

(** A call of a bound method that declares the one parameter [data]. *)
Definition call_method (name : string)
    (method : list Z → M ConnectedController unit) (args : list argument)
  : M ConnectedController unit :=
  match args with
  | [ArgList data] => method data
  | [ArgInt _] => raise (TypeError "'int' object is not subscriptable")
  | _ =>
      raise (TypeError (name +:+ "() takes 2 positional arguments but " +:+
                        pretty (S (length args)) +:+ " were given"))
  end.

Section methods.
Variable K : ControllerConstants.

(** [send_message] is recorded; a [ValueError] it raises is caught and
    printed, so the method returns normally in either case. *)
Definition send_midi_message (data : list Z) : M ConnectedController unit :=
  modify (λ self,
    set_midi_out {| out_port := out_port (midi_out self);
                    send_message_calls := send_message_calls (midi_out self) ++ [data] |}
                 self).

Definition change_knob_value (id new_value : Z) : M ConnectedController unit :=
  let data := [KNOB_VALUE_CHANGE_COMMAND K; id; new_value] in
  send_midi_message data.

Definition turn_on_button_led (id : Z) : M ConnectedController unit :=
  self ← get;
  let data := [BUTTON_VALUE_CHANGE_ON_COMMAND K; id; button_value_on (controller self)] in
  send_midi_message data.

Definition turn_off_button_led (id : Z) : M ConnectedController unit :=
  self ← get;
  let data := [BUTTON_VALUE_CHANGE_OFF_COMMAND K; id; button_value_off (controller self)] in
  send_midi_message data.

Definition init_buttons : M ConnectedController unit :=
  self ← get;
  for_each (button_ids self) (λ id,
    turn_off_button_led id;;
    modify (λ self,
      set_button_engagement
        (<[id := button_value_off (controller self)]> (button_engagement self)) self)).

Definition init_knobs : M ConnectedController unit :=
  self ← get;
  for_each (knob_ids self) (λ id,
    change_knob_value id (knob_value_min (controller self));;
    modify (λ self,
      set_knob_engagement
        (<[id := knob_value_min (controller self)]> (knob_engagement self)) self)).

Definition handle_button_engagement (data : list Z) : M ConnectedController unit :=
  id ← lift (getitem data 0);
  call_handler "action_handler" (handle_button_action id).

Definition handle_button_disengagement (data : list Z) : M ConnectedController unit :=
  ret tt.

(** The two [if] statements of [handle_knob_message], in their order. *)
Definition corrected_prev_velocity (c : Controller) (prev_velocity velocity : Z) : Z :=
  let prev_velocity :=
    if velocity =? knob_value_min c then knob_value_min c + 1 else prev_velocity in
  let prev_velocity :=
    if velocity =? knob_value_max c then knob_value_max c - 1 else prev_velocity in
  prev_velocity.

Definition handle_knob_message (data : list Z) : M ConnectedController unit :=
  id ← lift (getitem data 0);
  velocity ← lift (getitem data 1);
  self ← get;
  prev_velocity ← lift (dict_getitem (knob_engagement self) id);
  let prev_velocity := corrected_prev_velocity (controller self) prev_velocity velocity in
  call_handler "action_handler" (handle_knob_action id prev_velocity velocity).

(** [time.sleep]: no effect on the state. *)
Definition sleep : M ConnectedController unit := ret tt.

Definition flash_knob (id : Z) : M ConnectedController unit :=
  for_each (seq 0 3) (λ _,
    self ← get;
    change_knob_value id (knob_value_min (controller self));;
    sleep;;
    change_knob_value id (knob_value_max (controller self));;
    sleep).

Definition flash_button (id : Z) : M ConnectedController unit :=
  for_each (seq 0 3) (λ _,
    turn_on_button_led id;;
    sleep;;
    turn_off_button_led id;;
    sleep).

(** [handle_midi_message] assigns no [id]: the name is the builtin function,
    and each handler is called with three positional arguments. *)
Definition handle_midi_message (command channel : Z) (data : list Z)
  : M ConnectedController unit :=
  self ← get;
  let id := builtin_id in
  if py_in id (knob_ids self) then
    call_method "handle_knob_message" handle_knob_message
      [ArgInt command; ArgInt channel; ArgList data]
  else if py_in id (button_ids self) && (command =? BUTTON_ENGAGED_COMMAND K) then
    call_method "handle_button_engagement" handle_button_engagement
      [ArgInt command; ArgInt channel; ArgList data]
  else if py_in id (button_ids self) && (command =? BUTTON_DISENGAGED_COMMAND K) then
    call_method "handle_button_disengagement" handle_button_disengagement
      [ArgInt command; ArgInt channel; ArgList data]
  else raise (ValueError "action '<built-in function id>' cannot be found").

(** [message] is the pair of the bytes and the time since the last message. *)
Definition midi_callback {T} (message : list Z * T) : M ConnectedController unit :=
  status_byte ← lift (getitem (fst message) 0);
  let command := Z.land status_byte 0xF0 in
  let channel := Z.land status_byte 0x0F in
  let data_bytes := drop 1 (fst message) in
  handle_midi_message command channel data_bytes.

(** Modelled from the spec: the input port is python-rtmidi's, which is not
    code of this repository. The spec (sections 5 and 7) has the port call
    the registered callback once for every message, one call at a time, and
    has an error of one message leave the session running. That is all this
    function says: the result of every call is recorded, and the next message
    goes to the same object whether the call returned or raised. Nothing in
    the source decides it, [midi_callback] catches no exception. *)
Fixpoint deliver {T} (messages : list (list Z * T)) (self : ConnectedController)
  : list (result unit) * ConnectedController :=
  match messages with
  | [] => ([], self)
  | message :: messages' =>
      let '(r, self') := midi_callback message self in
      let '(rs, self'') := deliver messages' self' in
      (r :: rs, self'')
  end.

(** [port.split(":")[0]] *)
Fixpoint before_colon (port : string) : string :=
  match port with
  | EmptyString => ""
  | String a port' => if Ascii.eqb a ":" then "" else String a (before_colon port')
  end.

(** The loop of [create] over [enumerate(available_ports)], entered with the
    port found so far and with the index [i] of the next one. *)
Fixpoint find_port (name : string) (available_ports : list string) (i : nat)
    (found : string * Z) : string * Z :=
  match available_ports with
  | [] => found
  | port :: ports =>
      find_port name ports (S i)
        (if decide (before_colon port = name) then (port, Z.of_nat i) else found)
  end.

(** [open_port] of a port object that lists [n] ports: an index out of range
    raises [InvalidPortError]. *)
Definition open_port_ok (n : nat) (port_index : Z) : bool :=
  (0 <=? port_index) && (port_index <? Z.of_nat n).

(** [create], given the port names the two rtmidi objects list. The errors
    of [open_port] are caught and printed inside [create]: the second port is
    not opened when the first one failed, and the instance is built anyway. *)
Definition create (actions_handler : ActionsHandler) (controller : Controller)
    (ports_in ports_out : list string) : result ConnectedController :=
  let button_ids := map id (buttons controller) in
  let knob_ids := map id (knobs controller) in
  let available_ports := filter (λ port, port ∈ ports_out) ports_in in
  let '(controller_port, port_index) :=
    find_port (name controller) available_ports 0 ("", -1) in
  if decide (controller_port = "") then Raise (IOError "No correct MIDI ports available.")
  else
    let in_ok := open_port_ok (length ports_in) port_index in
    let out_ok := in_ok && open_port_ok (length ports_out) port_index in
    let instance := {|
      controller := controller;
      actions_handler := actions_handler;
      midi_out := {| out_port := if out_ok then Some (Z.to_nat port_index) else None;
                     send_message_calls := [] |};
      midi_in := {| in_port := if in_ok then Some (Z.to_nat port_index) else None;
                    callback_set := false |};
      button_ids := button_ids;
      button_engagement := ∅;
      knob_ids := knob_ids;
      knob_engagement := ∅ |} in
    let set_callback :=
      modify (λ self, set_midi_in {| in_port := in_port (midi_in self);
                                     callback_set := true |} self) in
    match (init_buttons;; init_knobs;; set_callback) instance with
    | (Ok _, instance') => Ok instance'
    | (Raise e, _) => Raise e
    end.

End methods.

End connected_controller.

(** ** The fixtures of actions/_tests/test_bound_controller.py *)

Module fixtures.
Import connected_controller.

Definition binds : binds.Binds := {|
  binds.name := "TestBinds";
  binds.description := Some "Test description";
  binds.app_name := "TestApp";
  binds.controller_name := "TestController";
  binds.button_binds := [{| binds.button_id := 1; binds.action_id := "Action1" |}];
  binds.knob_binds :=
    [{| binds.knob_id := 2;
        binds.action_id_increase := Some "incr";
        binds.action_id_decrease := Some "decr" |}]
|}.

Definition controller : controller.Controller := {|
  controller.name := "TestController";
  controller.button_value_off := 11;
  controller.button_value_on := 100;
  controller.knob_value_min := 33;
  controller.knob_value_max := 55;
  controller.buttons :=
    [{| controller.id := 0; controller.element_name := "Button1" |};
     {| controller.id := 1; controller.element_name := "Button2" |}];
  controller.knobs :=
    [{| controller.id := 2; controller.element_name := "Knob1" |};
     {| controller.id := 3; controller.element_name := "Knob2" |}]
|}.

(** Command bytes of a common controller: note on, note off, control change. *)
Definition constants : ControllerConstants := {|
  BUTTON_ENGAGED_COMMAND := 0x90;
  BUTTON_DISENGAGED_COMMAND := 0x80;
  KNOB_VALUE_CHANGE_COMMAND := 0xB0;
  BUTTON_VALUE_CHANGE_ON_COMMAND := 0x90;
  BUTTON_VALUE_CHANGE_OFF_COMMAND := 0x80
|}.

(** The test controller as [create] leaves it: engagement initialised, no
    handler call yet. *)
Definition connected : ConnectedController := {|
  connected_controller.controller := controller;
  actions_handler := {| calls := [] |};
  midi_in := {| in_port := Some 0%nat; callback_set := true |};
  midi_out := {| out_port := Some 0%nat;
                 send_message_calls :=
                   [[0x80; 0; 11]; [0x80; 1; 11]; [0xB0; 2; 33]; [0xB0; 3; 33]] |};
  button_ids := [0; 1];
  button_engagement := {[ 0 := 11; 1 := 11 ]};
  knob_ids := [2; 3];
  knob_engagement := {[ 2 := 33; 3 := 33 ]}
|}.

(** A stand-in for PyYAML: the document is the dumped value itself. *)
Definition plain_yaml : utils.Yaml := {|
  utils.document := utils.yaml_value;
  utils.safe_dump := λ data, data;
  utils.safe_load := λ text, Ok text
|}.

(** [is_subpath] as [save_to] uses it: the path lies under the directory. *)
Definition is_subpath (directory path : config.Path) : bool :=
  bool_decide (directory `prefix_of` path).

Definition directories : config.Config := {|
  config.BINDS_READONLY_DIR := ["package"; "config_files"; "binds"];
  config.BINDS_USER_DIR := ["home"; "config"; "binds"];
  config.CONTROLLERS_READONLY_DIR := ["package"; "config_files"; "controllers"];
  config.CONTROLLERS_USER_DIR := ["home"; "config"; "controllers"];
  config.APP_STATE_FILE := ["home"; "config"; "app_state.yaml"]
|}.

End fixtures.

(** * Properties *)

(** ** [find_duplicate] *)

Section find_duplicate_facts.
Import utils.
Context {A : Type} `{Countable A}.

Lemma not_elem_of_seen_add (seen : gset A) (val x : A) :
  x ∉ {[val]} ∪ seen ↔ x ≠ val ∧ x ∉ seen.
Proof. rewrite elem_of_union, elem_of_singleton. tauto. Qed.

Lemma find_duplicate_loop_None (seen : gset A) (values : list A) :
  find_duplicate_loop seen values = None ↔
  NoDup values ∧ ∀ x, x ∈ values → x ∉ seen.
Proof.
  revert seen. induction values as [|v l IH]; intros seen; simpl.
  - split; [intros _|done]. split; [constructor|]. intros x Hx. inversion Hx.
  - destruct (decide (v ∈ seen)) as [Hin|Hnin].
    + split; [done|]. intros [_ Hall]. exfalso. apply (Hall v); [left|done].
    + rewrite IH, NoDup_cons. split.
      * intros [Hnd Hall]. repeat split; [|done|].
        -- intros Hv. apply Hall, not_elem_of_seen_add in Hv. tauto.
        -- intros x Hx. apply elem_of_cons in Hx as [Hx|Hx]; [by subst|].
           apply Hall, not_elem_of_seen_add in Hx. tauto.
      * intros [[Hv Hnd] Hall]. split; [done|].
        intros x Hx. apply not_elem_of_seen_add. split.
        -- intros Heq. by subst.
        -- apply Hall. by right.
Qed.

Lemma find_duplicate_loop_Some (seen : gset A) (values : list A) (v : A) :
  find_duplicate_loop seen values = Some v ↔
  ∃ pre post, values = pre ++ v :: post ∧ NoDup pre ∧
              (∀ x, x ∈ pre → x ∉ seen) ∧ (v ∈ seen ∨ v ∈ pre).
Proof.
  revert seen. induction values as [|w l IH]; intros seen; simpl.
  - split; [done|]. intros (pre & post & Heq & _). by destruct pre.
  - destruct (decide (w ∈ seen)) as [Hin|Hnin].
    + split.
      * intros Heq. simplify_eq. exists [], l.
        repeat split; [constructor| |by left]. intros x Hx. inversion Hx.
      * intros (pre & post & Heq & _ & Hall & _).
        destruct pre as [|p pre]; simplify_eq/=; [done|].
        exfalso. eapply Hall; [apply list_elem_of_here|done].
    + rewrite IH. split.
      * intros (pre & post & Heq & Hnd & Hall & Hv). subst l.
        exists (w :: pre), post. repeat split.
        -- constructor; [|done].
           intros Hw. apply Hall, not_elem_of_seen_add in Hw. tauto.
        -- intros x Hx. apply elem_of_cons in Hx as [Hx|Hx]; [by subst|].
           apply Hall, not_elem_of_seen_add in Hx. tauto.
        -- destruct Hv as [Hv|Hv]; [|by right; right].
           apply elem_of_union in Hv as [Hv|Hv]; [|by left].
           apply elem_of_singleton in Hv. subst. right. left.
      * intros (pre & post & Heq & Hnd & Hall & Hv).
        destruct pre as [|p pre]; simplify_eq/=.
        { destruct Hv as [Hv|Hv]; [done|inversion Hv]. }
        apply NoDup_cons in Hnd as [Hp Hnd].
        exists pre, post. repeat split; [done| |].
        -- intros x Hx. apply not_elem_of_seen_add. split.
           ++ intros Heq. by subst.
           ++ apply Hall. by right.
        -- destruct Hv as [Hv|Hv]; [by left; apply elem_of_union_r|].
           apply elem_of_cons in Hv as [Hv|Hv]; [|by right].
           subst. left. apply elem_of_union_l. by apply elem_of_singleton.
Qed.

Lemma find_duplicate_None (values : list A) :
  find_duplicate values = None ↔ NoDup values.
Proof.
  unfold find_duplicate. rewrite find_duplicate_loop_None. split; [tauto|].
  intros Hnd. split; [done|]. intros x _. apply not_elem_of_empty.
Qed.

Lemma find_duplicate_Some (values : list A) (v : A) :
  find_duplicate values = Some v ↔
  ∃ pre post, values = pre ++ v :: post ∧ NoDup pre ∧ v ∈ pre.
Proof.
  unfold find_duplicate. rewrite find_duplicate_loop_Some. split.
  - intros (pre & post & Heq & Hnd & _ & [Hv|Hv]).
    + by apply not_elem_of_empty in Hv.
    + by exists pre, post.
  - intros (pre & post & Heq & Hnd & Hv). exists pre, post.
    repeat split; [done|done| |by right]. intros x _. apply not_elem_of_empty.
Qed.

End find_duplicate_facts.

(** C6. Scanning in input order, [find_duplicate] returns the first value
    whose second occurrence is met: the value [v] that ends the shortest
    prefix [pre ++ [v]] holding a repetition. It returns [None] exactly when
    the list has no duplicate. The four cases of the test suite are
    instances. *)
Theorem find_duplicate_first_seen_duplicate (A : Type) `{Countable A} :
  (∀ (values : list A) (v : A),
      utils.find_duplicate values = Some v ↔
      ∃ pre post, values = pre ++ v :: post ∧ NoDup pre ∧ v ∈ pre) ∧
  (∀ values : list A, utils.find_duplicate values = None ↔ NoDup values) ∧
  utils.find_duplicate ([] : list A) = None ∧
  utils.find_duplicate [1; 2; 3] = None ∧
  utils.find_duplicate ["a"; "b"] = None ∧
  utils.find_duplicate [1; 2; 3; 1; 4] = Some 1 ∧
  utils.find_duplicate [1; 2; 1; 2] = Some 1.
Proof.
  split; [|split]; [apply find_duplicate_Some|apply find_duplicate_None|].
  repeat split; vm_compute; reflexivity.
Qed.

(** ** The field constraints *)

Section pydantic_facts.
Import pydantic.

Lemma ge_le_spec (ge le v : Z) : ge_le ge le v = true ↔ ge ≤ v ≤ le.
Proof. unfold ge_le. rewrite andb_true_iff, !Z.leb_le. tauto. Qed.

Lemma min_length_1 (s : string) : min_length 1 s = true ↔ s ≠ "".
Proof. destruct s; simpl; split; done. Qed.

Lemma field_error_nil (ok : bool) (loc msg : string) :
  field_error ok loc msg = [] ↔ ok = true.
Proof. destruct ok; simpl; split; done. Qed.

Lemma root_error_nil {A} (r : result A) : root_error r = [] ↔ is_Ok r.
Proof. destruct r as [a|[]]; simpl; split; done. Qed.

Lemma is_Raise_not_Ok {A} (r : result A) : is_Raise r ↔ ¬ is_Ok r.
Proof. destruct r; simpl; tauto. Qed.

(** Construction returns the data it was given or raises. *)
Lemma validated_Ok {A} (errors : list error_item) (data : A) :
  validated errors data = Ok data ↔ errors = [].
Proof. destruct errors; simpl; split; done. Qed.

Lemma validated_Raise {A} (errors : list error_item) (data : A) :
  is_Raise (validated errors data) ↔ validated errors data ≠ Ok data.
Proof. destruct errors; simpl; split; done. Qed.

Lemma validated_cases {A} (errors : list error_item) (data : A) :
  validated errors data = Ok data ∨ is_Raise (validated errors data).
Proof. destruct errors; simpl; [by left|by right]. Qed.

End pydantic_facts.

Lemma forallb_false_elem {A} (f : A → bool) (l : list A) :
  forallb f l = false ↔ ∃ x, x ∈ l ∧ f x = false.
Proof.
  induction l as [|a l IH]; simpl.
  - split; [done|]. intros (x & Hx & _). inversion Hx.
  - rewrite andb_false_iff, IH. split.
    + intros [Ha|(x & Hx & Hf)]; [exists a|exists x]; split; try done; [left|by right].
    + intros (x & Hx & Hf). apply elem_of_cons in Hx as [Hx|Hx]; [subst; by left|].
      right. by exists x.
Qed.

(** ** [Binds] *)

Section binds_facts.
Import utils pydantic binds.

Lemma button_binds_ok_spec (bbs : list ButtonBind) :
  button_binds_ok bbs = true ↔ ∀ b, b ∈ bbs → 0 ≤ button_id b ≤ 127.
Proof.
  unfold button_binds_ok. rewrite forallb_forall. setoid_rewrite ge_le_spec.
  setoid_rewrite <- list_elem_of_In. done.
Qed.

Lemma knob_binds_ok_spec (kbs : list KnobBind) :
  knob_binds_ok kbs = true ↔ ∀ k, k ∈ kbs → 0 ≤ knob_id k ≤ 127.
Proof.
  unfold knob_binds_ok. rewrite forallb_forall. setoid_rewrite ge_le_spec.
  setoid_rewrite <- list_elem_of_In. done.
Qed.

Lemma check_duplicate_ids_Ok (bbs : list ButtonBind) (kbs : list KnobBind) :
  is_Ok (check_duplicate_ids {| get_button_binds := Some bbs; get_knob_binds := Some kbs |})
  ↔ NoDup (map button_id bbs ++ map knob_id kbs).
Proof.
  unfold check_duplicate_ids; simpl. rewrite <- find_duplicate_None.
  destruct (find_duplicate _); simpl; split; done.
Qed.

(** The errors [Binds_init] collects are empty exactly on valid data. *)
Lemma Binds_init_Ok_iff (data : Binds) : Binds_init data = Ok data ↔ Binds_valid data.
Proof.
  unfold Binds_init, Binds_valid, bound_ids. cbv zeta.
  rewrite validated_Ok.
  rewrite !app_nil, !field_error_nil, root_error_nil.
  rewrite !min_length_1, <- button_binds_ok_spec, <- knob_binds_ok_spec.
  destruct (button_binds_ok (button_binds data)) eqn:Hb;
    destruct (knob_binds_ok (knob_binds data)) eqn:Hk;
    rewrite ?check_duplicate_ids_Ok; simpl; try tauto.
  all: split; [tauto|]; intros (_ & _ & Hf1 & Hf2 & _); discriminate.
Qed.

Lemma Binds_init_Raise_iff (data : Binds) :
  is_Raise (Binds_init data) ↔ ¬ Binds_valid data.
Proof.
  rewrite <- Binds_init_Ok_iff. unfold Binds_init. cbv zeta. apply validated_Raise.
Qed.

Lemma Binds_init_cases (data : Binds) :
  Binds_init data = Ok data ∨ is_Raise (Binds_init data).
Proof. unfold Binds_init. cbv zeta. apply validated_cases. Qed.

End binds_facts.

(** C5. Construction of [Binds] raises exactly when the name is empty, the
    application name is empty, a button id or a knob id lies outside
    [0, 127], or an id occurs twice in the list of the button ids followed by
    the knob ids. An id used for a button and for a knob is such a
    repetition; when none of the conditions holds, construction returns the
    model. *)
Theorem Binds_init_fails_exactly_when (data : binds.Binds) :
  (is_Raise (binds.Binds_init data) ↔
     binds.name data = "" ∨ binds.app_name data = "" ∨
     (∃ b, b ∈ binds.button_binds data ∧ ¬ 0 ≤ binds.button_id b ≤ 127) ∨
     (∃ k, k ∈ binds.knob_binds data ∧ ¬ 0 ≤ binds.knob_id k ≤ 127) ∨
     ¬ NoDup (map binds.button_id (binds.button_binds data) ++
              map binds.knob_id (binds.knob_binds data))) ∧
  (∀ b k, b ∈ binds.button_binds data → k ∈ binds.knob_binds data →
          binds.button_id b = binds.knob_id k → is_Raise (binds.Binds_init data)) ∧
  (¬ is_Raise (binds.Binds_init data) → binds.Binds_init data = Ok data).
Proof.
  assert (Hiff : is_Raise (binds.Binds_init data) ↔
     binds.name data = "" ∨ binds.app_name data = "" ∨
     (∃ b, b ∈ binds.button_binds data ∧ ¬ 0 ≤ binds.button_id b ≤ 127) ∨
     (∃ k, k ∈ binds.knob_binds data ∧ ¬ 0 ≤ binds.knob_id k ≤ 127) ∨
     ¬ NoDup (map binds.button_id (binds.button_binds data) ++
              map binds.knob_id (binds.knob_binds data))).
  { rewrite Binds_init_Raise_iff. unfold binds.Binds_valid, binds.bound_ids. split.
    - intros Hn.
      destruct (decide (binds.name data = "")) as [|Hname]; [by left|].
      destruct (decide (binds.app_name data = "")) as [|Happ]; [by right; left|].
      destruct (binds.button_binds_ok (binds.button_binds data)) eqn:Hb.
      2:{ right; right; left. apply forallb_false_elem in Hb as (b & Hin & Hb).
          exists b. split; [done|]. rewrite <- ge_le_spec, Hb. done. }
      destruct (binds.knob_binds_ok (binds.knob_binds data)) eqn:Hk.
      2:{ right; right; right; left. apply forallb_false_elem in Hk as (k & Hin & Hk).
          exists k. split; [done|]. rewrite <- ge_le_spec, Hk. done. }
      right; right; right; right. intros Hnd. apply Hn.
      split; [done|]. split; [done|]. split; [by apply button_binds_ok_spec|].
      split; [by apply knob_binds_ok_spec|done].
    - intros [Hc|[Hc|[(b & Hin & Hc)|[(k & Hin & Hc)|Hc]]]] (H1 & H2 & H3 & H4 & H5);
        try done.
      + by apply Hc, H3.
      + by apply Hc, H4. }
  split; [exact Hiff|]. split.
  - intros b k Hb Hk Heq. apply Hiff. right; right; right; right.
    intros Hnd. apply NoDup_app in Hnd as (_ & Hdisj & _).
    apply (Hdisj (binds.button_id b)).
    + apply list_elem_of_fmap. by exists b.
    + rewrite Heq. apply list_elem_of_fmap. by exists k.
  - intros Hn. by destruct (Binds_init_cases data).
Qed.

(** C10. Only [name] and [app_name] must be non-empty: data whose
    [controller_name] is the empty string, and which is valid otherwise, is
    accepted by the construction of [Binds]. *)
Theorem Binds_init_accepts_empty_controller_name (data : binds.Binds) :
  binds.controller_name data = "" →
  binds.name data ≠ "" →
  binds.app_name data ≠ "" →
  (∀ b, b ∈ binds.button_binds data → 0 ≤ binds.button_id b ≤ 127) →
  (∀ k, k ∈ binds.knob_binds data → 0 ≤ binds.knob_id k ≤ 127) →
  NoDup (map binds.button_id (binds.button_binds data) ++
         map binds.knob_id (binds.knob_binds data)) →
  binds.Binds_init data = Ok data.
Proof. intros _ Hname Happ Hb Hk Hnd. by apply Binds_init_Ok_iff. Qed.

Lemma fixture_binds_valid : binds.Binds_valid fixtures.binds.
Proof. apply Binds_init_Ok_iff. vm_compute. reflexivity. Qed.

Lemma Binds_init_accepts_empty_controller_name_witness :
  binds.Binds_init (binds.with_controller_name fixtures.binds "") =
    Ok (binds.with_controller_name fixtures.binds "").
Proof.
  destruct fixture_binds_valid as (Hname & Happ & Hb & Hk & Hnd).
  apply (Binds_init_accepts_empty_controller_name
           (binds.with_controller_name fixtures.binds ""));
    [reflexivity|exact Hname|exact Happ|exact Hb|exact Hk|exact Hnd].
Defined.

(** ** The connected controller *)

Section connected_controller_facts.
Import controller connected_controller.

(** The model declares [actions_handler]; [action_handler] is no attribute. *)
Lemma getattr_action_handler (self : ConnectedController) :
  getattr self "action_handler" = Raise (AttributeError "action_handler").
Proof. reflexivity. Qed.

Lemma getattr_actions_handler (self : ConnectedController) :
  getattr self "actions_handler" = Ok (AActionsHandler (actions_handler self)).
Proof. reflexivity. Qed.

Lemma call_handler_action_handler (c : handler_call) (self : ConnectedController) :
  call_handler "action_handler" c self = (Raise (AttributeError "action_handler"), self).
Proof. reflexivity. Qed.

Lemma py_in_builtin_id (l : list Z) : py_in builtin_id l = false.
Proof. reflexivity. Qed.



(** How [handle_knob_message] ends, by the shape of its input. *)
Lemma handle_knob_message_outcome (data : list Z) (self : ConnectedController) :
  handle_knob_message data self =
    match data with
    | id :: velocity :: _ =>
        match knob_engagement self !! id with
        | Some _ => (Raise (AttributeError "action_handler"), self)
        | None => (Raise (KeyError id), self)
        end
    | _ => (Raise IndexError, self)
    end.
Proof.
  destruct data as [|id [|velocity rest]]; try reflexivity.
  unfold handle_knob_message; simpl.
  unfold mbind, M_bind, bind, lift, get, dict_getitem; simpl.
  destruct (knob_engagement self !! id); reflexivity.
Qed.

End connected_controller_facts.

(** C8. [handle_knob_message] reads [knob_engagement[id]] before the
    boundary corrections: for an id that is no key of the dictionary it raises
    [KeyError], also when the value of the message is [knob_value_min] or
    [knob_value_max], and the controller is left as it was. *)
Theorem handle_knob_message_KeyError
    (self : connected_controller.ConnectedController) (id velocity : Z) (rest : list Z) :
  connected_controller.knob_engagement self !! id = None →
  connected_controller.handle_knob_message (id :: velocity :: rest) self =
    (Raise (KeyError id), self).
Proof. intros Hid. rewrite handle_knob_message_outcome, Hid. reflexivity. Qed.

Lemma handle_knob_message_KeyError_witness :
  connected_controller.knob_engagement fixtures.connected !! 9 = None ∧
  connected_controller.handle_knob_message [9; 33] fixtures.connected =
    (Raise (KeyError 9), fixtures.connected) ∧
  connected_controller.handle_knob_message [9; 55] fixtures.connected =
    (Raise (KeyError 9), fixtures.connected).
Proof.
  split; [reflexivity|].
  split; apply (handle_knob_message_KeyError fixtures.connected 9); reflexivity.
Defined.

(** C1. The code computes the corrected previous value but never passes it:
    the call goes through [self.action_handler], which the model does not
    have. For the test controller (knob 2 stored at 33, limits 33 and 55) and
    the message (2, 40) the method raises [AttributeError] and the handler has
    received no call. *)
Theorem handle_knob_message_passes_nothing :
  connected_controller.handle_knob_message [2; 40] fixtures.connected =
    (Raise (AttributeError "action_handler"), fixtures.connected) ∧
  connected_controller.calls
    (connected_controller.actions_handler
       (snd (connected_controller.handle_knob_message [2; 40] fixtures.connected))) = [].
Proof. split; reflexivity. Qed.

(** C2. [handle_knob_message] has no assignment to [knob_engagement]: after
    the message (2, 40) the stored value of knob 2 is still 33. *)
Theorem handle_knob_message_keeps_stored_value :
  connected_controller.knob_engagement fixtures.connected !! 2 = Some 33 ∧
  connected_controller.knob_engagement
    (snd (connected_controller.handle_knob_message [2; 40] fixtures.connected)) !! 2
  = Some 33.
Proof. split; reflexivity. Qed.


(** C4. Button 1 is a button of the test controller, yet the engaged and the
    disengaged message for it end in [ValueError]: the handler receives no
    call and the disengaged message is not accepted. *)
Theorem handle_midi_message_known_button (K : connected_controller.ControllerConstants) :
  1 ∈ connected_controller.button_ids fixtures.connected ∧
  connected_controller.handle_midi_message K
    (connected_controller.BUTTON_ENGAGED_COMMAND K) 0 [1; 100] fixtures.connected =
    (Raise (ValueError "action '<built-in function id>' cannot be found"),
     fixtures.connected) ∧
  connected_controller.handle_midi_message K
    (connected_controller.BUTTON_DISENGAGED_COMMAND K) 0 [1; 11] fixtures.connected =
    (Raise (ValueError "action '<built-in function id>' cannot be found"),
     fixtures.connected).
Proof. split; [compute_done|split; reflexivity]. Qed.

(** ** [Controller] *)

Section controller_facts.
Import utils pydantic controller.

Lemma int_field_Some (v : Z) : is_Some (int_field v) ↔ 0 ≤ v ≤ 127.
Proof.
  unfold int_field. rewrite <- ge_le_spec.
  destruct (ge_le 0 127 v); split; try done; by intros [x Hx].
Qed.

Lemma int_field_eq (v : Z) : 0 ≤ v ≤ 127 → int_field v = Some v.
Proof. intros Hv. apply ge_le_spec in Hv. unfold int_field. by rewrite Hv. Qed.

Lemma ControllerElement_ok_spec (e : ControllerElement) :
  ControllerElement_ok e = true ↔ 0 ≤ id e ≤ 127 ∧ element_name e ≠ "".
Proof.
  unfold ControllerElement_ok. by rewrite andb_true_iff, ge_le_spec, min_length_1.
Qed.

Lemma elements_field_Some (v : list ControllerElement) :
  is_Some (elements_field v) ↔
  (∀ e, e ∈ v → 0 ≤ id e ≤ 127 ∧ element_name e ≠ "") ∧ NoDup (map element_name v).
Proof.
  unfold elements_field, check_duplicate_names.
  rewrite <- find_duplicate_None.
  destruct (forallb ControllerElement_ok v) eqn:Hok.
  - rewrite forallb_forall in Hok.
    destruct (find_duplicate (map element_name v)) as [dup|].
    + split; [intros [x Hx]|intros [_ Hn]]; discriminate.
    + split; [|by eexists]. intros _. split; [|done]. intros e He.
      apply ControllerElement_ok_spec, Hok. by apply list_elem_of_In.
  - split; [by intros [x Hx]|]. intros [Hall _].
    apply forallb_false_elem in Hok as (e & He & Hok).
    apply Hall, ControllerElement_ok_spec in He. congruence.
Qed.

Lemma elements_field_eq (v : list ControllerElement) :
  is_Some (elements_field v) → elements_field v = Some v.
Proof.
  unfold elements_field, check_duplicate_names.
  destruct (forallb _ v); [|by intros [x Hx]].
  destruct (find_duplicate _); [by intros [x Hx]|done].
Qed.

Lemma Controller_init_Ok_iff (data : Controller) :
  Controller_init data = Ok data ↔ Controller_valid data.
Proof.
  unfold Controller_init, Controller_valid. cbv zeta.
  rewrite validated_Ok, !app_nil, !field_error_nil, !bool_decide_eq_true; simpl.
  rewrite !int_field_Some, !elements_field_Some, min_length_1, !root_error_nil.
  split.
  - intros ((Hname & Hoff & Hon & Hlo & Hhi & [Hbs Hbn] & [Hks Hkn]) & Hr).
    assert (Hb : elements_field (buttons data) = Some (buttons data))
      by (by apply elements_field_eq, elements_field_Some).
    assert (Hk : elements_field (knobs data) = Some (knobs data))
      by (by apply elements_field_eq, elements_field_Some).
    revert Hr. unfold check_duplicate_ids, check_button_values, check_knob_values; simpl.
    rewrite Hb, Hk, !int_field_eq by done.
    destruct (find_duplicate (map id (buttons data))) eqn:Hdb; simpl;
      [by intros [[] _]|].
    destruct (find_duplicate (map id (knobs data))) eqn:Hdk; simpl;
      [by intros [[] _]|].
    case_decide as Hoo; simpl; [by intros (_ & [] & _)|].
    destruct (knob_value_min data >=? knob_value_max data) eqn:Hge; simpl;
      [by intros (_ & _ & [])|].
    intros _. apply find_duplicate_None in Hdb, Hdk.
    do 5 (split; [done|]).
    split.
    { intros e He. apply elem_of_app in He as [He|He]; [by apply Hbs|by apply Hks]. }
    do 4 (split; [done|]).
    split; [|lia]. intros Heq. apply Hoo. by rewrite Heq.
  - intros (Hname & Hoff & Hon & Hlo & Hhi & Hall & Hbi & Hki & Hbn & Hkn & Hne & Hlt).
    assert (Hbs : ∀ e, e ∈ buttons data → 0 ≤ id e ≤ 127 ∧ element_name e ≠ "")
      by (intros e He; apply Hall, elem_of_app; by left).
    assert (Hks : ∀ e, e ∈ knobs data → 0 ≤ id e ≤ 127 ∧ element_name e ≠ "")
      by (intros e He; apply Hall, elem_of_app; by right).
    assert (Hb : elements_field (buttons data) = Some (buttons data))
      by (by apply elements_field_eq, elements_field_Some).
    assert (Hk : elements_field (knobs data) = Some (knobs data))
      by (by apply elements_field_eq, elements_field_Some).
    split.
    { do 5 (split; [done|]). split; split; done. }
    unfold check_duplicate_ids, check_button_values, check_knob_values; simpl.
    rewrite Hb, Hk, !int_field_eq by done.
    apply find_duplicate_None in Hbi, Hki. rewrite Hbi, Hki. simpl.
    case_decide as Hoo; [by simplify_eq|]. simpl.
    destruct (knob_value_min data >=? knob_value_max data) eqn:Hge; [lia|done].
Qed.

End controller_facts.

(** ** Saving and loading *)

Section yaml_facts.
Import utils.

Lemma mapM_read_dump {T} (read : yaml_value → option T) (dump : T → yaml_value)
    (l : list T) :
  (∀ x, read (dump x) = Some x) → mapM read (map dump l) = Some l.
Proof.
  intros Hrd. induction l as [|x l IH]; [done|].
  simpl. rewrite Hrd. simpl. rewrite IH. done.
Qed.

Lemma list_of_read_dump {T} (read : yaml_value → option T) (dump : T → yaml_value)
    (l : list T) :
  (∀ x, read (dump x) = Some x) → list_of read (YList (map dump l)) = Some l.
Proof. intros Hrd. unfold list_of. simpl. by apply mapM_read_dump. Qed.

Lemma ButtonBind_read_dict (b : binds.ButtonBind) :
  binds.ButtonBind_read (binds.ButtonBind_dict b) = Some b.
Proof. by destruct b. Qed.

Lemma KnobBind_read_dict (k : binds.KnobBind) :
  binds.KnobBind_read (binds.KnobBind_dict k) = Some k.
Proof. by destruct k as [i [inc|] [dec|]]. Qed.

Lemma ControllerElement_read_dict (e : controller.ControllerElement) :
  controller.ControllerElement_read (controller.ControllerElement_dict e) = Some e.
Proof. by destruct e. Qed.

Lemma Binds_read_dict (b : binds.Binds) :
  ∃ items, binds.Binds_dict b = YDict items ∧ binds.Binds_read items = Some b.
Proof.
  eexists. split; [reflexivity|].
  destruct b as [n d a c bbs kbs]. unfold binds.Binds_read, required. simpl.
  rewrite (list_of_read_dump _ _ bbs ButtonBind_read_dict).
  rewrite (list_of_read_dump _ _ kbs KnobBind_read_dict).
  by destruct d.
Qed.

Lemma Controller_read_dict (c : controller.Controller) :
  ∃ items, controller.Controller_dict c = YDict items ∧
           controller.Controller_read items = Some c.
Proof.
  eexists. split; [reflexivity|].
  destruct c as [n off on lo hi bs ks]. unfold controller.Controller_read, required. simpl.
  rewrite (list_of_read_dump _ _ bs ControllerElement_read_dict).
  rewrite (list_of_read_dump _ _ ks ControllerElement_read_dict).
  done.
Qed.

Context `{Yaml}.
Variable is_subpath : config.Path → config.Path → bool.
Variable Config : config.Config.

Lemma write_text_read (p : config.Path) (text : document) (fs fs' : filesystem) :
  write_text p text fs = (Ok tt, fs') → read_text fs' p = Ok text.
Proof.
  unfold write_text, read_text, mbind, M_bind, bind, get, put, raise.
  destruct p as [|c p]; [done|].
  simpl. intros Heq.
  repeat case_match; simplify_eq;
    match goal with Hl : <[_:=_]> _ !! _ = _ |- _ => rewrite lookup_insert_eq in Hl end;
    by simplify_eq.
Qed.

Lemma save_to_written {Model} `{YamlBaseModel Model} (self : Model)
    (path : config.Path) (fs fs' : filesystem) :
  save_to is_subpath Config self path fs = (Ok tt, fs') →
  read_text fs' path = Ok (safe_dump (dict self)).
Proof.
  unfold save_to.
  destruct (is_subpath _ path); [done|]. destruct (is_subpath _ path); [done|].
  unfold mbind, M_bind, bind. destruct (mkdir _ fs) as [[[]|e] fs1]; [|done].
  apply write_text_read.
Qed.

(** What was saved is loaded again, when the YAML library reads its own
    output and the constructor accepts the dictionary of the model. *)
Lemma save_to_load_from {Model} `{YamlBaseModel Model} (self : Model)
    (path : config.Path) (fs fs' : filesystem) (items : list (string * yaml_value)) :
  safe_load (safe_dump (dict self)) = Ok (dict self) →
  dict self = YDict items →
  construct items = Ok self →
  save_to is_subpath Config self path fs = (Ok tt, fs') →
  load_from path fs' = Ok self.
Proof.
  intros Hyaml Hdict Hcons Hsave. unfold load_from.
  rewrite (save_to_written _ _ _ _ Hsave), Hyaml, Hdict. simpl. exact Hcons.
Qed.

End yaml_facts.

(** C7. A valid [Binds] or [Controller] that [save_to] has written is read
    back by [load_from] as the same model, provided the YAML library loads
    what it dumped. *)
Theorem save_to_load_from_roundtrip `{utils.Yaml}
    (is_subpath : config.Path → config.Path → bool) (Config : config.Config)
    (path : config.Path) (fs fs' : utils.filesystem) :
  (∀ data, utils.safe_load (utils.safe_dump data) = Ok data) →
  (∀ b : binds.Binds,
      binds.Binds_valid b →
      utils.save_to is_subpath Config b path fs = (Ok tt, fs') →
      utils.load_from path fs' = Ok b) ∧
  (∀ c : controller.Controller,
      controller.Controller_valid c →
      utils.save_to is_subpath Config c path fs = (Ok tt, fs') →
      utils.load_from path fs' = Ok c).
Proof.
  intros Hyaml. split.
  - intros b Hvalid Hsave.
    destruct (Binds_read_dict b) as (items & Hdict & Hread).
    apply (save_to_load_from is_subpath Config b path fs fs' items);
      [apply Hyaml|exact Hdict| |exact Hsave].
    simpl. unfold binds.Binds_construct, binds.Binds_construct_with. rewrite Hread.
    by apply Binds_init_Ok_iff.
  - intros c Hvalid Hsave.
    destruct (Controller_read_dict c) as (items & Hdict & Hread).
    apply (save_to_load_from is_subpath Config c path fs fs' items);
      [apply Hyaml|exact Hdict| |exact Hsave].
    simpl. unfold controller.Controller_construct, controller.Controller_construct_with. rewrite Hread.
    by apply Controller_init_Ok_iff.
Qed.

Lemma fixture_controller_valid : controller.Controller_valid fixtures.controller.
Proof. apply Controller_init_Ok_iff. vm_compute. reflexivity. Qed.

Lemma save_to_load_from_roundtrip_witness :
  utils.load_from (H := fixtures.plain_yaml) ["home"; "config"; "binds"; "TestBinds.yaml"]
    (snd (utils.save_to (H := fixtures.plain_yaml) fixtures.is_subpath fixtures.directories
            fixtures.binds ["home"; "config"; "binds"; "TestBinds.yaml"] ∅))
  = Ok fixtures.binds.
Proof.
  apply (proj1 (@save_to_load_from_roundtrip fixtures.plain_yaml
                  fixtures.is_subpath fixtures.directories
                  ["home"; "config"; "binds"; "TestBinds.yaml"] ∅ _
                  (λ data, eq_refl))).
  - exact fixture_binds_valid.
  - assert (Hfst : fst (utils.save_to (H := fixtures.plain_yaml) fixtures.is_subpath
                          fixtures.directories fixtures.binds
                          ["home"; "config"; "binds"; "TestBinds.yaml"] ∅) = Ok tt)
      by (vm_compute; reflexivity).
    destruct (utils.save_to _ _ _ _ _) as [r fs']. simpl in *. by rewrite Hfst.
Defined.

(** ** pathlib *)

Section pathlib_facts.
Import utils config.

Lemma string_length_app (a b : string) :
  String.length (a +:+ b) = (String.length a + String.length b)%nat.
Proof. induction a as [|c a IH]; simpl; [done|]. by rewrite IH. Qed.

Lemma substring_length (s : string) (n m : nat) :
  (n + m ≤ String.length s)%nat → String.length (substring n m s) = m.
Proof.
  revert n m. induction s as [|c s IH]; intros n m Hle; simpl in *.
  - destruct n, m; simpl; lia.
  - destruct n as [|n]; [destruct m as [|m]; simpl; [done|]|].
    + rewrite (IH 0%nat m); [done|lia].
    + apply IH. lia.
Qed.

Lemma rfind_lt (c : ascii) (s : string) (i : nat) :
  rfind c s = Some i → (i < String.length s)%nat.
Proof.
  revert i. induction s as [|a s IH]; intros i; simpl; [done|].
  destruct (rfind c s) as [j|].
  - intros Heq. simplify_eq. specialize (IH j eq_refl). lia.
  - destruct (Ascii.eqb a c); intros Heq; simplify_eq. lia.
Qed.

(** The stem and the suffix split the name. *)
Lemma stem_suffix_length (p : Path) :
  (String.length (path_stem p) + String.length (path_suffix p))%nat =
  String.length (path_name p).
Proof.
  unfold path_stem, path_suffix, suffix_index.
  destruct (rfind "." (path_name p)) as [i|] eqn:Hr; [|simpl; lia].
  apply rfind_lt in Hr.
  destruct ((0 <? i)%nat && (i <? String.length (path_name p) - 1)%nat); [|simpl; lia].
  rewrite !substring_length by lia. lia.
Qed.

Lemma path_name_snoc (p : Path) (name : string) : path_name (p ++ [name]) = name.
Proof. unfold path_name. by rewrite last_snoc. Qed.

Lemma path_parent_snoc (p : Path) (name : string) : path_parent (p ++ [name]) = p.
Proof.
  unfold path_parent. rewrite length_app. simpl.
  replace (length p + 1 - 1)%nat with (length p) by lia. apply take_app_length.
Qed.

Lemma path_name_nonempty (p : Path) : path_name p ≠ "" → p ≠ [].
Proof. intros Hn Hp. subst. by apply Hn. Qed.

Lemma joinpath_snoc (p : Path) (name : string) :
  name ≠ "" → joinpath p name = p ++ [name].
Proof. intros Hn. unfold joinpath. by destruct (decide (name = "")). Qed.

Lemma with_name_Ok (p : Path) (name : string) :
  path_name p ≠ "" → with_name p name = Ok (path_parent p ++ [name]).
Proof. intros Hn. unfold with_name. by destruct (decide (path_name p = "")). Qed.

(** One turn of the loop of [save_copy_to]: same directory, longer name. *)
Lemma with_stem_longer (p : Path) (uuid : string) :
  path_name p ≠ "" →
  ∃ p', with_stem p (path_stem p +:+ " " +:+ uuid) = Ok p' ∧
        path_parent p' = path_parent p ∧
        (String.length (path_name p) < String.length (path_name p'))%nat.
Proof.
  intros Hn. unfold with_stem. rewrite with_name_Ok by done.
  eexists. split; [reflexivity|]. rewrite path_parent_snoc, path_name_snoc.
  split; [done|]. rewrite !string_length_app. simpl.
  pose proof (stem_suffix_length p). lia.
Qed.

Lemma string_length_pos (s : string) : s ≠ "" ↔ (0 < String.length s)%nat.
Proof. destruct s; simpl; split; try done; lia. Qed.

Lemma string_app_cons (x : ascii) (a b : string) :
  String x a +:+ b = String x (a +:+ b).
Proof. reflexivity. Qed.

Lemma string_app_assoc (a b c : string) : (a +:+ b) +:+ c = a +:+ (b +:+ c).
Proof. induction a as [|x a IH]; [done|]. rewrite !string_app_cons. by rewrite IH. Qed.

(** A name with a space in it is not [..]. *)
Lemma spaced_name_not_dotdot (a b c : string) : (a +:+ " " +:+ b) +:+ c ≠ "..".
Proof.
  rewrite string_app_assoc.
  destruct a as [|x [|y [|z a]]]; rewrite ?string_app_cons; intros Heq; by simplify_eq.
Qed.

(** The name the loop of [save_copy_to] builds is never [..]. *)
Lemma with_stem_not_dotdot (p p' : Path) (uuid : string) :
  with_stem p (path_stem p +:+ " " +:+ uuid) = Ok p' → path_name p' ≠ "..".
Proof.
  unfold with_stem, with_name. destruct (decide (path_name p = "")); [done|].
  intros Heq. simplify_eq. rewrite path_name_snoc. apply spaced_name_not_dotdot.
Qed.

End pathlib_facts.

(** ** [save_copy_to] *)

Section save_copy_to_facts.
Import utils config.
Context `{Yaml}.
Variable is_subpath : Path → Path → bool.
Variable Config : config.Config.
Variable uuid1 : nat → string.
Local Open Scope nat_scope.

Lemma elem_of_long_names (fs : filesystem) (n : nat) (q : Path) :
  q ∈ long_names fs n ↔ n ≤ String.length (path_name q) ∧ is_Some (fs !! q).
Proof. unfold long_names. by rewrite elem_of_filter, elem_of_dom. Qed.

(** Away from the name [..], a path exists when it is the current directory
    or an entry of the file system. *)
Lemma path_exists_entry (fs : filesystem) (p : Path) :
  path_name p ≠ ".." →
  path_exists fs p = bool_decide (p = []) || bool_decide (is_Some (fs !! p)).
Proof. intros Hn. unfold path_exists. by destruct (decide (path_name p = "..")). Qed.

Lemma path_exists_lookup (fs : filesystem) (p : Path) :
  p ≠ [] → path_name p ≠ ".." → path_exists fs p = true → is_Some (fs !! p).
Proof.
  intros Hp Hn Hex. rewrite path_exists_entry in Hex by done.
  apply orb_true_iff in Hex as [Hex|Hex]; by apply bool_decide_eq_true in Hex.
Qed.


Lemma free_path_unfold (fuel : nat) (fs : filesystem) (p : Path) (k : nat) :
  free_path uuid1 (S fuel) fs p k =
  if path_exists fs p then
    match with_stem p (path_stem p +:+ " " +:+ uuid1 k) with
    | Ok p' => free_path uuid1 fuel fs p' (S k)
    | Raise e => Some (Raise e)
    end
  else Some (Ok p).
Proof. reflexivity. Qed.

Lemma long_names_size (fs : filesystem) (n : nat) : size (long_names fs n) ≤ size fs.
Proof.
  rewrite <- (size_dom fs).
  apply subseteq_size. intros q Hq.
  apply elem_of_long_names in Hq as [_ Hq]. by apply elem_of_dom.
Qed.

Lemma long_names_shrink (fs : filesystem) (p : Path) (n : nat) :
  p ≠ [] → path_name p ≠ ".." → path_exists fs p = true →
  (String.length (path_name p) < n)%nat →
  size (long_names fs n) < size (long_names fs (String.length (path_name p))).
Proof.
  intros Hp Hdd Hex Hlt. apply subset_size. split.
  - intros q Hq. apply elem_of_long_names in Hq as [Hq Hd].
    apply elem_of_long_names. split; [lia|done].
  - intros Hsub.
    assert (Hin : p ∈ long_names fs (String.length (path_name p))).
    { apply elem_of_long_names. split; [lia|]. by apply path_exists_lookup. }
    apply Hsub, elem_of_long_names in Hin as [Hin _]. lia.
Qed.

(** The loop ends within the fuel, for a path with a name other than [..]. *)
Lemma free_path_named (fuel : nat) (fs : filesystem) (p : Path) (k : nat) :
  path_name p ≠ "" → path_name p ≠ ".." →
  size (long_names fs (String.length (path_name p))) ≤ fuel →
  ∃ p', free_path uuid1 fuel fs p k = Some (Ok p') ∧
        path_exists fs p' = false ∧
        path_parent p' = path_parent p ∧
        path_name p' ≠ "" ∧
        path_name p' ≠ ".." ∧
        (path_exists fs p = false → p' = p).
Proof.
  revert p k. induction fuel as [|fuel IH]; intros p k Hn Hdd Hsize.
  - destruct (path_exists fs p) eqn:Hex.
    + exfalso. pose proof (path_name_nonempty p Hn) as Hp.
      assert (p ∈ long_names fs (String.length (path_name p))) as Hin.
      { apply elem_of_long_names. split; [lia|]. by apply path_exists_lookup. }
      assert (size (long_names fs (String.length (path_name p))) = 0) as Hz by lia.
      apply size_empty_iff in Hz. rewrite Hz in Hin. by apply not_elem_of_empty in Hin.
    + exists p. simpl. rewrite Hex. done.
  - destruct (path_exists fs p) eqn:Hex.
    + destruct (with_stem_longer p (uuid1 k) Hn) as (p1 & Hstem & Hpar & Hlen).
      assert (Hn1 : path_name p1 ≠ "") by (apply string_length_pos; lia).
      pose proof (with_stem_not_dotdot p p1 (uuid1 k) Hstem) as Hdd1.
      destruct (IH p1 (S k) Hn1 Hdd1) as (p' & Hfree & Hnex & Hpar' & Hn' & Hdd' & _).
      { pose proof (long_names_shrink fs p _ (path_name_nonempty p Hn) Hdd Hex Hlen). lia. }
      exists p'. rewrite free_path_unfold, Hex, Hstem, Hfree.
      repeat split; try done. by rewrite Hpar'.
    + exists p. rewrite free_path_unfold, Hex. done.
Qed.

(** With the fuel [save_copy_to] gives it, the loop always ends: after the
    first turn the name is neither empty nor [..], and the names that follow
    grow. *)
Lemma free_path_ends (fs : filesystem) (p : Path) :
  free_path uuid1 (S (size fs)) fs p 0 ≠ None.
Proof.
  rewrite free_path_unfold. destruct (path_exists fs p); [|done].
  destruct (decide (path_name p = "")) as [Hn|Hn].
  - unfold with_stem, with_name. by destruct (decide (path_name p = "")).
  - destruct (with_stem_longer p (uuid1 0) Hn) as (p1 & Hstem & Hpar & Hlen).
    rewrite Hstem.
    destruct (free_path_named (size fs) fs p1 1) as (p' & Heq & _).
    + apply string_length_pos. lia.
    + by apply (with_stem_not_dotdot p p1 (uuid1 0)).
    + apply long_names_size.
    + by rewrite Heq.
Qed.



Lemma mkdir_from_preserves (made : Path) (todo : list string) (fs : filesystem)
    (q : Path) (n : node document) :
  fs !! q = Some n → snd (mkdir_from made todo fs) !! q = Some n.
Proof.
  revert made fs. induction todo as [|c todo IH]; intros made fs Hq; [done|].
  simpl. unfold mbind, M_bind, bind, get, put, raise. simpl.
  destruct (fs !! (made ++ [c])) as [[|t]|] eqn:Hc; simpl.
  - by apply IH.
  - done.
  - apply IH. rewrite lookup_insert_ne; [done|].
    intros Heq. subst. pose proof (eq_trans (eq_sym Hq) Hc). discriminate.
Qed.




End save_copy_to_facts.





(** A path named [..]: [new_dir / '..'] is the parent of [new_dir] and no
    file name. Where [new_dir] does not exist yet, [save_to] creates it and
    then cannot open the directory for writing; where it exists, the loop
    takes the candidate for taken and goes on to the name [.. 0]. *)
Lemma save_copy_to_dotdot_name :
  utils.save_copy_to (H := fixtures.plain_yaml) fixtures.is_subpath fixtures.directories
    (λ k, pretty k) fixtures.binds ["x"; ".."] ["home"] ∅
  = (Raise (OSError "is a directory"), {[ ["home"] := utils.Dir ]}) ∧
  utils.save_copy_to (H := fixtures.plain_yaml) fixtures.is_subpath fixtures.directories
    (λ k, pretty k) fixtures.binds ["x"; ".."] ["home"] {[ ["home"] := utils.Dir ]}
  = (Ok ["home"; ".. 0"],
     <[ ["home"; ".. 0"] := utils.File (utils.dict fixtures.binds) ]>
       {[ ["home"] := utils.Dir ]}).
Proof. split; vm_compute; reflexivity. Qed.

(** * Further properties of the code *)

(** ** The handlers of [ConnectedController] *)

(** The boundary correction of [handle_knob_message] (lines 232-236), for a
    controller whose minimum lies below its maximum: a value at the minimum
    gets the previous value one above it, a value at the maximum the previous
    value one below it, and any other value the stored one. *)
Theorem corrected_prev_velocity_spec
    (c : controller.Controller) (prev_velocity velocity : Z) :
  controller.knob_value_min c < controller.knob_value_max c →
  (velocity = controller.knob_value_min c →
     connected_controller.corrected_prev_velocity c prev_velocity velocity = velocity + 1) ∧
  (velocity = controller.knob_value_max c →
     connected_controller.corrected_prev_velocity c prev_velocity velocity = velocity - 1) ∧
  (velocity ≠ controller.knob_value_min c → velocity ≠ controller.knob_value_max c →
     connected_controller.corrected_prev_velocity c prev_velocity velocity = prev_velocity).
Proof.
  intros Hlt. unfold connected_controller.corrected_prev_velocity.
  repeat split.
  - intros ->. rewrite Z.eqb_refl.
    destruct (Z.eqb_spec (controller.knob_value_min c) (controller.knob_value_max c)); lia.
  - intros ->. rewrite Z.eqb_refl. lia.
  - intros Hmin Hmax.
    destruct (Z.eqb_spec velocity (controller.knob_value_min c)); [done|].
    destruct (Z.eqb_spec velocity (controller.knob_value_max c)); done.
Qed.

Lemma corrected_prev_velocity_spec_witness :
  connected_controller.corrected_prev_velocity fixtures.controller 40 33 = 34 ∧
  connected_controller.corrected_prev_velocity fixtures.controller 40 55 = 54 ∧
  connected_controller.corrected_prev_velocity fixtures.controller 40 41 = 40.
Proof.
  pose proof (corrected_prev_velocity_spec fixtures.controller 40 33 eq_refl) as (H1 & _ & _).
  pose proof (corrected_prev_velocity_spec fixtures.controller 40 55 eq_refl) as (_ & H2 & _).
  pose proof (corrected_prev_velocity_spec fixtures.controller 40 41 eq_refl) as (_ & _ & H3).
  split; [exact (H1 eq_refl)|]. split; [exact (H2 eq_refl)|].
  apply H3; discriminate.
Defined.

(** [handle_knob_message] never returns normally: it raises [IndexError] for
    fewer than two data bytes, [KeyError] for an id that is no key of
    [knob_engagement], and [AttributeError] otherwise. In every case the
    controller, the record of handler calls included, is as before. *)
Theorem handle_knob_message_always_raises
    (data : list Z) (self : connected_controller.ConnectedController) :
  snd (connected_controller.handle_knob_message data self) = self ∧
  is_Raise (fst (connected_controller.handle_knob_message data self)) ∧
  ((length data < 2)%nat →
     fst (connected_controller.handle_knob_message data self) = Raise IndexError) ∧
  (∀ id velocity rest, data = id :: velocity :: rest →
     fst (connected_controller.handle_knob_message data self) =
       match connected_controller.knob_engagement self !! id with
       | Some _ => Raise (AttributeError "action_handler")
       | None => Raise (KeyError id)
       end).
Proof.
  rewrite handle_knob_message_outcome.
  destruct data as [|id [|velocity rest]]; simpl.
  - repeat split; try done.
  - repeat split; try done.
  - destruct (connected_controller.knob_engagement self !! id) eqn:Hid; simpl;
      repeat split; try done; try lia.
    + intros id' v' rest' Heq. simplify_eq. by rewrite Hid.
    + intros id' v' rest' Heq. simplify_eq. by rewrite Hid.
Qed.

(** [handle_button_engagement] never reaches the handler either. *)
Theorem handle_button_engagement_always_raises
    (data : list Z) (self : connected_controller.ConnectedController) :
  connected_controller.handle_button_engagement data self =
    (Raise (match data with
            | [] => IndexError
            | _ :: _ => AttributeError "action_handler"
            end), self).
Proof. destruct data; reflexivity. Qed.

(** ** Inbound messages *)

Section inbound_facts.
Import connected_controller.
Variable K : ControllerConstants.

Lemma midi_callback_outcome {T} (message : list Z * T) (self : ConnectedController) :
  midi_callback K message self =
    (Raise (match fst message with
            | [] => IndexError
            | _ :: _ => ValueError "action '<built-in function id>' cannot be found"
            end), self).
Proof. destruct message as [[|status_byte data] t]; reflexivity. Qed.

Lemma deliver_outcome {T} (messages : list (list Z * T)) (self : ConnectedController) :
  deliver K messages self =
    (map (λ message : list Z * T,
            Raise (match fst message with
                   | [] => IndexError
                   | _ :: _ => ValueError "action '<built-in function id>' cannot be found"
                   end)) messages,
     self).
Proof.
  induction messages as [|message messages IH]; [done|].
  cbn [deliver]. rewrite midi_callback_outcome, IH. reflexivity.
Qed.

End inbound_facts.

(** Whatever messages the port delivers, none of them reaches a handler:
    every one ends in an exception ([IndexError] for a message without bytes,
    [ValueError] otherwise), and the controller with its engagement
    dictionaries and its record of handler calls is left as it was. *)
Theorem deliver_changes_nothing (K : connected_controller.ControllerConstants)
    (messages : list (list Z * unit))
    (self : connected_controller.ConnectedController) :
  snd (connected_controller.deliver K messages self) = self ∧
  length (fst (connected_controller.deliver K messages self)) = length messages ∧
  Forall is_Raise (fst (connected_controller.deliver K messages self)).
Proof.
  rewrite deliver_outcome. simpl. split; [done|]. split; [by rewrite length_map|].
  apply Forall_fmap, Forall_forall. intros message _. done.
Qed.

(** ** Initialisation and outbound messages *)

Section outbound_facts.
Import controller connected_controller.
Variable K : ControllerConstants.

Lemma lookup_foldl_insert (ids : list Z) (d : gmap Z Z) (v id : Z) :
  foldl (λ d i, <[i:=v]> d) d ids !! id =
    if decide (id ∈ ids) then Some v else d !! id.
Proof.
  revert d. induction ids as [|i ids IH]; intros d; simpl.
  - destruct (decide (id ∈ [])) as [Hin|_]; [inversion Hin|done].
  - rewrite IH. destruct (decide (id ∈ ids)) as [Hin|Hnin].
    + rewrite decide_True; [done|by right].
    + destruct (decide (id = i)) as [->|Hne].
      * rewrite lookup_insert_eq, decide_True; [done|left].
      * rewrite lookup_insert_ne by done. rewrite decide_False; [done|].
        intros Hin. apply elem_of_cons in Hin as [?|?]; done.
Qed.

(** One turn of the loop of [init_knobs], and of [init_buttons]. *)
Definition init_knob_step (self : ConnectedController) (id : Z) : ConnectedController :=
  set_knob_engagement
    (<[id := knob_value_min (controller self)]> (knob_engagement self))
    (set_midi_out
       {| out_port := out_port (midi_out self);
          send_message_calls :=
            send_message_calls (midi_out self) ++
            [[KNOB_VALUE_CHANGE_COMMAND K; id; knob_value_min (controller self)]] |}
       self).

Definition init_button_step (self : ConnectedController) (id : Z) : ConnectedController :=
  set_button_engagement
    (<[id := button_value_off (controller self)]> (button_engagement self))
    (set_midi_out
       {| out_port := out_port (midi_out self);
          send_message_calls :=
            send_message_calls (midi_out self) ++
            [[BUTTON_VALUE_CHANGE_OFF_COMMAND K; id; button_value_off (controller self)]] |}
       self).

Lemma for_each_steps {A} (ids : list A) (body : A → M ConnectedController unit)
    (step : ConnectedController → A → ConnectedController) (self : ConnectedController) :
  (∀ id s, body id s = (Ok tt, step s id)) →
  for_each ids body self = (Ok tt, foldl step self ids).
Proof.
  intros Hbody. revert self. induction ids as [|id ids IH]; intros self; [done|].
  simpl. unfold mbind, M_bind, bind. rewrite Hbody. apply IH.
Qed.

Lemma init_knobs_steps (self : ConnectedController) :
  init_knobs K self = (Ok tt, foldl init_knob_step self (knob_ids self)).
Proof.
  unfold init_knobs, mbind, M_bind, bind, get. simpl.
  generalize (knob_ids self) as ids. intros ids.
  assert (Hc : ∀ ids s, controller (foldl init_knob_step s ids) = controller s).
  { intros l. induction l as [|i l IHl]; intros s; [done|]. simpl. by rewrite IHl. }
  revert self. induction ids as [|id ids IH]; intros self; [done|].
  simpl. unfold mbind, M_bind, bind. simpl.
  specialize (IH (init_knob_step self id)). simpl in IH. exact IH.
Qed.

Lemma init_buttons_steps (self : ConnectedController) :
  init_buttons K self = (Ok tt, foldl init_button_step self (button_ids self)).
Proof.
  unfold init_buttons, mbind, M_bind, bind, get. simpl.
  apply for_each_steps. intros id s. reflexivity.
Qed.

Lemma foldl_init_knob_step (ids : list Z) (self : ConnectedController) :
  foldl init_knob_step self ids =
    set_knob_engagement
      (foldl (λ d i, <[i := knob_value_min (controller self)]> d) (knob_engagement self) ids)
      (set_midi_out
         {| out_port := out_port (midi_out self);
            send_message_calls :=
              send_message_calls (midi_out self) ++
              map (λ id, [KNOB_VALUE_CHANGE_COMMAND K; id; knob_value_min (controller self)])
                  ids |}
         self).
Proof.
  revert self. induction ids as [|id ids IH]; intros self; simpl.
  - rewrite app_nil_r. by destruct self as [? ? ? [] ? ? ? ?].
  - rewrite IH. unfold set_knob_engagement, set_midi_out, init_knob_step. simpl.
    by rewrite <- app_assoc.
Qed.

Lemma foldl_init_button_step (ids : list Z) (self : ConnectedController) :
  foldl init_button_step self ids =
    set_button_engagement
      (foldl (λ d i, <[i := button_value_off (controller self)]> d)
             (button_engagement self) ids)
      (set_midi_out
         {| out_port := out_port (midi_out self);
            send_message_calls :=
              send_message_calls (midi_out self) ++
              map (λ id, [BUTTON_VALUE_CHANGE_OFF_COMMAND K; id;
                          button_value_off (controller self)])
                  ids |}
         self).
Proof.
  revert self. induction ids as [|id ids IH]; intros self; simpl.
  - rewrite app_nil_r. by destruct self as [? ? ? [] ? ? ? ?].
  - rewrite IH. unfold set_button_engagement, set_midi_out, init_button_step. simpl.
    by rewrite <- app_assoc.
Qed.

End outbound_facts.

(** [init_knobs] returns normally; afterwards every knob id of the
    controller is stored at [knob_value_min], other keys of [knob_engagement]
    are as before, one value-change message per knob id was sent, in the order
    of [knob_ids], and the buttons and the handler are untouched. *)
Theorem init_knobs_spec (K : connected_controller.ControllerConstants)
    (self : connected_controller.ConnectedController) :
  let self' := snd (connected_controller.init_knobs K self) in
  let v := controller.knob_value_min (connected_controller.controller self) in
  fst (connected_controller.init_knobs K self) = Ok tt ∧
  (∀ id, connected_controller.knob_engagement self' !! id =
         if decide (id ∈ connected_controller.knob_ids self) then Some v
         else connected_controller.knob_engagement self !! id) ∧
  connected_controller.send_message_calls (connected_controller.midi_out self') =
    connected_controller.send_message_calls (connected_controller.midi_out self) ++
    map (λ id, [connected_controller.KNOB_VALUE_CHANGE_COMMAND K; id; v])
        (connected_controller.knob_ids self) ∧
  connected_controller.button_engagement self' =
    connected_controller.button_engagement self ∧
  connected_controller.actions_handler self' = connected_controller.actions_handler self ∧
  connected_controller.controller self' = connected_controller.controller self.
Proof.
  rewrite init_knobs_steps, foldl_init_knob_step. simpl.
  repeat split. intros id. apply lookup_foldl_insert.
Qed.

(** [init_buttons] returns normally; afterwards every button id is stored at
    [button_value_off], one LED-off message per button id was sent, in the
    order of [button_ids], and the knobs and the handler are untouched. *)
Theorem init_buttons_spec (K : connected_controller.ControllerConstants)
    (self : connected_controller.ConnectedController) :
  let self' := snd (connected_controller.init_buttons K self) in
  let v := controller.button_value_off (connected_controller.controller self) in
  fst (connected_controller.init_buttons K self) = Ok tt ∧
  (∀ id, connected_controller.button_engagement self' !! id =
         if decide (id ∈ connected_controller.button_ids self) then Some v
         else connected_controller.button_engagement self !! id) ∧
  connected_controller.send_message_calls (connected_controller.midi_out self') =
    connected_controller.send_message_calls (connected_controller.midi_out self) ++
    map (λ id, [connected_controller.BUTTON_VALUE_CHANGE_OFF_COMMAND K; id; v])
        (connected_controller.button_ids self) ∧
  connected_controller.knob_engagement self' =
    connected_controller.knob_engagement self ∧
  connected_controller.actions_handler self' = connected_controller.actions_handler self ∧
  connected_controller.controller self' = connected_controller.controller self.
Proof.
  rewrite init_buttons_steps, foldl_init_button_step. simpl.
  repeat split. intros id. apply lookup_foldl_insert.
Qed.

(** [flash_knob] sends six value-change messages for the knob, minimum and
    maximum in turn, and changes nothing else; the stored value of the knob
    is not updated. *)
Theorem flash_knob_spec (K : connected_controller.ControllerConstants) (id : Z)
    (self : connected_controller.ConnectedController) :
  let self' := snd (connected_controller.flash_knob K id self) in
  let lo := [connected_controller.KNOB_VALUE_CHANGE_COMMAND K; id;
             controller.knob_value_min (connected_controller.controller self)] in
  let hi := [connected_controller.KNOB_VALUE_CHANGE_COMMAND K; id;
             controller.knob_value_max (connected_controller.controller self)] in
  fst (connected_controller.flash_knob K id self) = Ok tt ∧
  connected_controller.send_message_calls (connected_controller.midi_out self') =
    connected_controller.send_message_calls (connected_controller.midi_out self) ++
    [lo; hi; lo; hi; lo; hi] ∧
  connected_controller.knob_engagement self' = connected_controller.knob_engagement self ∧
  connected_controller.button_engagement self' =
    connected_controller.button_engagement self ∧
  connected_controller.actions_handler self' = connected_controller.actions_handler self.
Proof.
  destruct self as [c h mi [port sent] bids beng kids keng]. simpl.
  repeat split. simpl. by rewrite <- !app_assoc.
Qed.

(** [flash_button] sends six LED messages for the button, on and off in
    turn, and changes nothing else. *)
Theorem flash_button_spec (K : connected_controller.ControllerConstants) (id : Z)
    (self : connected_controller.ConnectedController) :
  let self' := snd (connected_controller.flash_button K id self) in
  let on := [connected_controller.BUTTON_VALUE_CHANGE_ON_COMMAND K; id;
             controller.button_value_on (connected_controller.controller self)] in
  let off := [connected_controller.BUTTON_VALUE_CHANGE_OFF_COMMAND K; id;
              controller.button_value_off (connected_controller.controller self)] in
  fst (connected_controller.flash_button K id self) = Ok tt ∧
  connected_controller.send_message_calls (connected_controller.midi_out self') =
    connected_controller.send_message_calls (connected_controller.midi_out self) ++
    [on; off; on; off; on; off] ∧
  connected_controller.knob_engagement self' = connected_controller.knob_engagement self ∧
  connected_controller.button_engagement self' =
    connected_controller.button_engagement self ∧
  connected_controller.actions_handler self' = connected_controller.actions_handler self.
Proof.
  destruct self as [c h mi [port sent] bids beng kids keng]. simpl.
  repeat split. simpl. by rewrite <- !app_assoc.
Qed.

(** ** [create] *)

Section create_facts.
Import controller connected_controller.
Variable K : ControllerConstants.

Lemma before_colon_nonempty (port : string) : before_colon port ≠ "" → port ≠ "".
Proof. by destruct port. Qed.

(** The loop keeps what it had found when no port matches, and otherwise
    ends with the last matching port and its index. *)
Lemma find_port_spec (name : string) (ports : list string) (i : nat) (found : string * Z) :
  (Forall (λ port, before_colon port ≠ name) ports ∧
   find_port name ports i found = found) ∨
  (∃ j port, ports !! j = Some port ∧ before_colon port = name ∧
             Forall (λ port', before_colon port' ≠ name) (drop (S j) ports) ∧
             find_port name ports i found = (port, Z.of_nat (i + j))).
Proof.
  revert i found. induction ports as [|p ports IH]; intros i found; simpl.
  - left. by split.
  - destruct (IH (S i) (if decide (before_colon p = name) then (p, Z.of_nat i) else found))
      as [[Hall Heq]|(j & port & Hj & Hname & Hall & Heq)].
    + destruct (decide (before_colon p = name)) as [Hp|Hp].
      * right. exists 0%nat, p. rewrite Nat.add_0_r. by repeat split.
      * left. split; [by constructor|done].
    + right. exists (S j), port. repeat split; try done.
      rewrite Heq. do 2 f_equal. lia.
Qed.

(** The instance [create] builds once a port was found with index [j]. *)
Definition created (actions_handler : ActionsHandler) (controller : Controller)
    (ports_in ports_out : list string) (j : nat) : ConnectedController := {|
  connected_controller.controller := controller;
  connected_controller.actions_handler := actions_handler;
  midi_in := {| in_port := if open_port_ok (length ports_in) (Z.of_nat j)
                           then Some j else None;
                callback_set := true |};
  midi_out := {|
    out_port := if open_port_ok (length ports_in) (Z.of_nat j) &&
                   open_port_ok (length ports_out) (Z.of_nat j)
                then Some j else None;
    send_message_calls :=
      map (λ id, [BUTTON_VALUE_CHANGE_OFF_COMMAND K; id; button_value_off controller])
          (map id (buttons controller)) ++
      map (λ id, [KNOB_VALUE_CHANGE_COMMAND K; id; knob_value_min controller])
          (map id (knobs controller)) |};
  button_ids := map id (buttons controller);
  button_engagement :=
    foldl (λ d i, <[i := button_value_off controller]> d) ∅ (map id (buttons controller));
  knob_ids := map id (knobs controller);
  knob_engagement :=
    foldl (λ d i, <[i := knob_value_min controller]> d) ∅ (map id (knobs controller))
|}.

Lemma create_outcome (h : ActionsHandler) (c : Controller) (ports_in ports_out : list string) :
  name c ≠ "" →
  let available_ports := filter (λ port, port ∈ ports_out) ports_in in
  (Forall (λ port, before_colon port ≠ name c) available_ports ∧
   create K h c ports_in ports_out = Raise (IOError "No correct MIDI ports available.")) ∨
  (∃ j port, available_ports !! j = Some port ∧ before_colon port = name c ∧
             Forall (λ port', before_colon port' ≠ name c) (drop (S j) available_ports) ∧
             create K h c ports_in ports_out = Ok (created h c ports_in ports_out j)).
Proof.
  intros Hname available_ports. unfold create. fold available_ports.
  destruct (find_port_spec (name c) available_ports 0 ("", -1))
    as [[Hall Heq]|(j & port & Hj & Hport & Hall & Heq)]; rewrite Heq.
  - left. split; [done|]. by rewrite decide_True.
  - right. exists j, port. repeat split; try done.
    rewrite decide_False by (apply before_colon_nonempty; by rewrite Hport).
    simpl. rewrite Nat2Z.id.
    unfold mbind, M_bind, bind.
    rewrite init_buttons_steps, foldl_init_button_step. simpl.
    rewrite init_knobs_steps, foldl_init_knob_step. simpl.
    reflexivity.
Qed.

End create_facts.

Section create_results.
Import controller connected_controller.
Variable K : ControllerConstants.

Lemma create_Ok_inv (h : ActionsHandler) (c : Controller) (ports_in ports_out : list string)
    (instance : ConnectedController) :
  create K h c ports_in ports_out = Ok instance →
  ∃ j port, filter (λ port, port ∈ ports_out) ports_in !! j = Some port ∧
            before_colon port = name c ∧
            Forall (λ port', before_colon port' ≠ name c)
                   (drop (S j) (filter (λ port, port ∈ ports_out) ports_in)) ∧
            instance = created K h c ports_in ports_out j.
Proof.
  unfold create.
  destruct (find_port_spec (name c) (filter (λ port, port ∈ ports_out) ports_in) 0 ("", -1))
    as [[Hall Heq]|(j & port & Hj & Hport & Hall & Heq)]; rewrite Heq.
  - by rewrite decide_True.
  - destruct (decide (port = "")) as [|Hne]; [done|].
    simpl. rewrite Nat2Z.id. unfold mbind, M_bind, bind.
    rewrite init_buttons_steps, foldl_init_button_step. simpl.
    rewrite init_knobs_steps, foldl_init_knob_step. simpl.
    intros Heq'. injection Heq' as <-. by exists j, port.
Qed.

Lemma create_fixture :
  create fixtures.constants {| calls := [] |} fixtures.controller
    ["TestController:0"] ["TestController:0"] = Ok fixtures.connected.
Proof. vm_compute. reflexivity. Qed.

End create_results.

(** [create] raises [IOError] exactly when no port that both rtmidi objects
    list carries the name of the controller before its first colon; otherwise
    it returns an instance. The controller's name is not empty. *)
Theorem create_IOError_iff (K : connected_controller.ControllerConstants)
    (h : connected_controller.ActionsHandler) (c : controller.Controller)
    (ports_in ports_out : list string) :
  controller.name c ≠ "" →
  (connected_controller.create K h c ports_in ports_out =
     Raise (IOError "No correct MIDI ports available.") ↔
   ¬ ∃ port, port ∈ ports_in ∧ port ∈ ports_out ∧
             connected_controller.before_colon port = controller.name c) ∧
  ((∃ port, port ∈ ports_in ∧ port ∈ ports_out ∧
            connected_controller.before_colon port = controller.name c) →
   is_Ok (connected_controller.create K h c ports_in ports_out)).
Proof.
  intros Hname.
  destruct (create_outcome K h c ports_in ports_out Hname)
    as [[Hall Heq]|(j & port & Hj & Hport & _ & Heq)]; rewrite Heq.
  - assert (Hnone : ¬ ∃ port, port ∈ ports_in ∧ port ∈ ports_out ∧
                         connected_controller.before_colon port = controller.name c).
    { intros (port & Hin & Hout & Hport).
      rewrite Forall_forall in Hall. apply (Hall port); [|done].
      apply list_elem_of_filter. by split. }
    split; [done|]. intros Hex. by destruct Hnone.
  - apply list_elem_of_lookup_2, list_elem_of_filter in Hj as [Hout Hin].
    split; [|done]. split; [done|]. intros Hnone. exfalso. apply Hnone. by exists port.
Qed.

Lemma create_IOError_iff_witness :
  is_Ok (connected_controller.create fixtures.constants
           {| connected_controller.calls := [] |} fixtures.controller
           ["Other:0"; "TestController:1"] ["TestController:1"]) ∧
  connected_controller.create fixtures.constants
    {| connected_controller.calls := [] |} fixtures.controller
    ["Other:0"] ["Other:0"; "TestController:1"] =
    Raise (IOError "No correct MIDI ports available.").
Proof.
  split.
  - apply (create_IOError_iff fixtures.constants {| connected_controller.calls := [] |}
             fixtures.controller ["Other:0"; "TestController:1"] ["TestController:1"]
             ltac:(discriminate)).
    exists "TestController:1". repeat split; [compute_done|compute_done].
  - apply (create_IOError_iff fixtures.constants {| connected_controller.calls := [] |}
             fixtures.controller ["Other:0"] ["Other:0"; "TestController:1"]
             ltac:(discriminate)).
    intros (port & Hin & _ & Hname). apply list_elem_of_singleton in Hin. by subst.
Defined.

(** The instance [create] returns: it holds the controller and the handler
    it was given, the ids of the controller's buttons and knobs, every button
    stored at [button_value_off] and every knob at [knob_value_min] (and no
    other key), a registered callback, and it has sent one LED-off message
    per button followed by one value-change message per knob. *)
Theorem create_initial_state (K : connected_controller.ControllerConstants)
    (h : connected_controller.ActionsHandler) (c : controller.Controller)
    (ports_in ports_out : list string)
    (instance : connected_controller.ConnectedController) :
  connected_controller.create K h c ports_in ports_out = Ok instance →
  connected_controller.controller instance = c ∧
  connected_controller.actions_handler instance = h ∧
  connected_controller.button_ids instance = map controller.id (controller.buttons c) ∧
  connected_controller.knob_ids instance = map controller.id (controller.knobs c) ∧
  (∀ i, connected_controller.button_engagement instance !! i =
        if decide (i ∈ map controller.id (controller.buttons c))
        then Some (controller.button_value_off c) else None) ∧
  (∀ i, connected_controller.knob_engagement instance !! i =
        if decide (i ∈ map controller.id (controller.knobs c))
        then Some (controller.knob_value_min c) else None) ∧
  connected_controller.callback_set (connected_controller.midi_in instance) = true ∧
  connected_controller.send_message_calls (connected_controller.midi_out instance) =
    map (λ e, [connected_controller.BUTTON_VALUE_CHANGE_OFF_COMMAND K; controller.id e;
               controller.button_value_off c]) (controller.buttons c) ++
    map (λ e, [connected_controller.KNOB_VALUE_CHANGE_COMMAND K; controller.id e;
               controller.knob_value_min c]) (controller.knobs c).
Proof.
  intros Hcreate.
  apply create_Ok_inv in Hcreate as (j & port & _ & _ & _ & ->). simpl.
  repeat split.
  - intros i. by rewrite lookup_foldl_insert, lookup_empty.
  - intros i. by rewrite lookup_foldl_insert, lookup_empty.
  - by rewrite !map_map.
Qed.

Lemma create_initial_state_witness :
  connected_controller.knob_engagement fixtures.connected !! 2 = Some 33 ∧
  connected_controller.knob_engagement fixtures.connected !! 7 = None ∧
  connected_controller.button_engagement fixtures.connected !! 1 = Some 11.
Proof.
  pose proof (create_initial_state fixtures.constants
                {| connected_controller.calls := [] |} fixtures.controller
                ["TestController:0"] ["TestController:0"] fixtures.connected
                create_fixture) as (_ & _ & _ & _ & Hb & Hk & _).
  split; [exact (Hk 2)|]. split; [exact (Hk 7)|exact (Hb 1)].
Defined.

(** The port [create] opens. [port_index] counts the ports that both objects
    list, in the order of the input ports: the index opened designates the
    last port with the controller's name in that list of common ports, the
    input port is always opened with it, and the output port is opened with
    it when the output object lists that many ports. *)
Theorem create_opened_port (K : connected_controller.ControllerConstants)
    (h : connected_controller.ActionsHandler) (c : controller.Controller)
    (ports_in ports_out : list string)
    (instance : connected_controller.ConnectedController) :
  connected_controller.create K h c ports_in ports_out = Ok instance →
  ∃ j port,
    filter (λ port, port ∈ ports_out) ports_in !! j = Some port ∧
    connected_controller.before_colon port = controller.name c ∧
    (∀ j' port', (j < j')%nat →
       filter (λ port, port ∈ ports_out) ports_in !! j' = Some port' →
       connected_controller.before_colon port' ≠ controller.name c) ∧
    connected_controller.in_port (connected_controller.midi_in instance) = Some j ∧
    connected_controller.out_port (connected_controller.midi_out instance) =
      if decide (j < length ports_out)%nat then Some j else None.
Proof.
  intros Hcreate.
  apply create_Ok_inv in Hcreate as (j & port & Hj & Hport & Hall & ->).
  exists j, port. split; [done|]. split; [done|]. split.
  - intros j' port' Hlt Hj'. rewrite Forall_forall in Hall. apply Hall.
    apply list_elem_of_lookup. exists (j' - S j)%nat.
    rewrite lookup_drop. by replace (S j + (j' - S j))%nat with j' by lia.
  - assert (Hlen : (j < length ports_in)%nat).
    { apply lookup_lt_Some in Hj.
      pose proof (length_filter (λ port, port ∈ ports_out) ports_in). lia. }
    assert (Hin : connected_controller.open_port_ok (length ports_in) (Z.of_nat j) = true).
    { unfold connected_controller.open_port_ok.
      apply andb_true_iff. split; [apply Z.leb_le|apply Z.ltb_lt]; lia. }
    simpl. rewrite Hin. split; [done|]. simpl.
    unfold connected_controller.open_port_ok.
    destruct (decide (j < length ports_out)%nat) as [Hlt|Hge].
    + replace (Z.of_nat j <? Z.of_nat (length ports_out)) with true
        by (symmetry; apply Z.ltb_lt; lia).
      by replace (0 <=? Z.of_nat j) with true by (symmetry; apply Z.leb_le; lia).
    + replace (Z.of_nat j <? Z.of_nat (length ports_out)) with false
        by (symmetry; apply Z.ltb_ge; lia).
      by rewrite andb_false_r.
Qed.

Lemma create_opened_port_witness :
  ∃ j port,
    filter (λ port, port ∈ ["TestController:0"]) ["TestController:0"] !! j = Some port ∧
    connected_controller.before_colon port = "TestController" ∧
    connected_controller.in_port (connected_controller.midi_in fixtures.connected) = Some j.
Proof.
  destruct (create_opened_port fixtures.constants
              {| connected_controller.calls := [] |} fixtures.controller
              ["TestController:0"] ["TestController:0"] fixtures.connected
              create_fixture) as (j & port & Hj & Hport & _ & Hin & _).
  by exists j, port.
Defined.

(** ** Writing files *)

Section writing_facts.
Import utils config.
Context `{Yaml}.
Variable is_subpath : Path → Path → bool.
Variable Config : config.Config.
Variable uuid1 : nat → string.

Lemma write_text_frame (p : Path) (text : document) (fs : filesystem)
    (q : Path) (n : node document) :
  q ≠ p → fs !! q = Some n → snd (write_text p text fs) !! q = Some n.
Proof.
  intros Hne Hq. unfold write_text, mbind, M_bind, bind, get, put, raise. simpl.
  destruct p as [|c p]; [done|].
  simpl. repeat case_match; simplify_eq; simpl; try done;
    rewrite lookup_insert_ne; done.
Qed.

Lemma save_to_frame {Model} `{YamlBaseModel Model} (self : Model) (path : Path)
    (fs : filesystem) (q : Path) (n : node document) :
  q ≠ path → fs !! q = Some n →
  snd (save_to is_subpath Config self path fs) !! q = Some n.
Proof.
  intros Hne Hq. unfold save_to.
  destruct (is_subpath _ path); [done|]. destruct (is_subpath _ path); [done|].
  unfold mbind, M_bind, bind, mkdir.
  pose proof (mkdir_from_preserves [] (path_parent path) fs q n Hq) as Hkeep.
  destruct (mkdir_from [] (path_parent path) fs) as [[[]|e] fs1]; simpl in *; [|done].
  by apply write_text_frame.
Qed.



End writing_facts.


(** [save_to] touches no entry but the path itself and directories that were
    missing; when it returns, the path holds the dumped model, also when a
    file was there before (it is replaced). *)
Theorem save_to_effect `{utils.Yaml}
    (is_subpath : config.Path → config.Path → bool) (Config : config.Config)
    {Model : Type} `{utils.YamlBaseModel Model}
    (self : Model) (path : config.Path) (fs : utils.filesystem) :
  (∀ q n, q ≠ path → fs !! q = Some n →
          snd (utils.save_to is_subpath Config self path fs) !! q = Some n) ∧
  (fst (utils.save_to is_subpath Config self path fs) = Ok tt →
   snd (utils.save_to is_subpath Config self path fs) !! path =
     Some (utils.File (utils.safe_dump (utils.dict self)))).
Proof.
  split; [intros q n; apply save_to_frame|].
  intros Hok.
  destruct (utils.save_to is_subpath Config self path fs) as [r fs'] eqn:Hsave.
  simpl in *. subst r.
  apply save_to_written in Hsave. unfold utils.read_text in Hsave.
  destruct (fs' !! path) as [[|text]|]; simplify_eq; [done|].
  by destruct (decide (path = [])).
Qed.

(** [save_to] never saves under a read-only directory of [Config]: for such
    a path it raises [AssertionError] and the file system is as before, no
    directory created. *)
Theorem save_to_read_only `{utils.Yaml}
    (is_subpath : config.Path → config.Path → bool) (Config : config.Config)
    {Model : Type} `{utils.YamlBaseModel Model}
    (self : Model) (path : config.Path) (fs : utils.filesystem) :
  is_subpath (config.BINDS_READONLY_DIR Config) path = true ∨
  is_subpath (config.CONTROLLERS_READONLY_DIR Config) path = true →
  utils.save_to is_subpath Config self path fs = (Raise (AssertionError ""), fs).
Proof.
  intros [Hro|Hro]; unfold utils.save_to; rewrite Hro; [done|].
  destruct (is_subpath (config.BINDS_READONLY_DIR Config) path); reflexivity.
Qed.

Lemma save_to_read_only_witness :
  utils.save_to (H := fixtures.plain_yaml) fixtures.is_subpath fixtures.directories
    fixtures.controller ["package"; "config_files"; "controllers"; "x.yaml"] ∅
  = (Raise (AssertionError ""), ∅).
Proof.
  apply (@save_to_read_only fixtures.plain_yaml fixtures.is_subpath fixtures.directories
           _ _ fixtures.controller ["package"; "config_files"; "controllers"; "x.yaml"] ∅).
  right. vm_compute. reflexivity.
Defined.

(** ** Loading *)

Section loading_facts.
Import utils pydantic.

Lemma validated_Ok_inv {A} (errors : list error_item) (data model : A) :
  validated errors data = Ok model → model = data ∧ errors = [].
Proof. destruct errors; simpl; intros Heq; by simplify_eq. Qed.

Lemma Binds_init_Ok_inv (data model : binds.Binds) :
  binds.Binds_init data = Ok model → model = data ∧ binds.Binds_valid data.
Proof.
  intros Hinit. assert (model = data) as ->.
  { unfold binds.Binds_init in Hinit. cbv zeta in Hinit.
    by apply validated_Ok_inv in Hinit as [-> _]. }
  split; [done|]. by apply Binds_init_Ok_iff.
Qed.

Lemma Controller_init_Ok_inv (data model : controller.Controller) :
  controller.Controller_init data = Ok model →
  model = data ∧ controller.Controller_valid data.
Proof.
  intros Hinit. assert (model = data) as ->.
  { unfold controller.Controller_init in Hinit. cbv zeta in Hinit.
    by apply validated_Ok_inv in Hinit as [-> _]. }
  split; [done|]. by apply Controller_init_Ok_iff.
Qed.

Lemma Controller_init_cases (data : controller.Controller) :
  controller.Controller_init data = Ok data ∨ is_Raise (controller.Controller_init data).
Proof. unfold controller.Controller_init. cbv zeta. apply validated_cases. Qed.

Context `{Yaml}.

Lemma load_from_Ok_inv {Model} `{YamlBaseModel Model} (path : config.Path)
    (fs : filesystem) (model : Model) :
  load_from path fs = Ok model →
  ∃ text items, fs !! path = Some (File text) ∧
                safe_load text = Ok (YDict items) ∧
                construct items = Ok model.
Proof.
  unfold load_from, read_text.
  destruct (fs !! path) as [[|text]|]; [done| |by destruct (decide (path = []))].
  destruct (safe_load text) as [[]|e] eqn:Hload; try done.
  intros Hcons. by exists text, items.
Qed.

End loading_facts.

(** A model that [load_from] returns satisfies the constraints of its class,
    whatever the document holds and however its values are read at the
    types of the fields: the constraints and the root validators are checked
    on the values as read, after every conversion. A loaded [Binds] has
    non-empty names, ids within [0, 127] and no id bound twice; a loaded
    [Controller] has its values in range, distinct ids and names among its
    buttons and among its knobs, different button values and a minimum below
    the maximum. The statement is made for every reading [read]; the models
    [Binds_model] and [Controller_model] are the ones with the readings
    [Binds_read] and [Controller_read]. *)
Theorem load_from_yields_valid_models `{utils.Yaml}
    (path : config.Path) (fs : utils.filesystem) :
  (∀ (read : list (string * utils.yaml_value) → option binds.Binds) (b : binds.Binds),
      @utils.load_from _ _ (binds.Binds_model_with read) path fs = Ok b →
      binds.Binds_valid b) ∧
  (∀ (read : list (string * utils.yaml_value) → option controller.Controller)
     (c : controller.Controller),
      @utils.load_from _ _ (controller.Controller_model_with read) path fs = Ok c →
      controller.Controller_valid c).
Proof.
  split.
  - intros read b Hload.
    apply load_from_Ok_inv in Hload as (text & items & _ & _ & Hcons).
    simpl in Hcons. unfold binds.Binds_construct_with in Hcons.
    destruct (read items) as [data|]; [|done].
    by apply Binds_init_Ok_inv in Hcons as [-> Hvalid].
  - intros read c Hload.
    apply load_from_Ok_inv in Hload as (text & items & _ & _ & Hcons).
    simpl in Hcons. unfold controller.Controller_construct_with in Hcons.
    destruct (read items) as [data|]; [|done].
    by apply Controller_init_Ok_inv in Hcons as [-> Hvalid].
Qed.


(** Construction of a [Controller] returns the data it was given exactly
    when the declared constraints hold, and raises otherwise. Buttons and
    knobs are checked apart: the same id may name a button and a knob. *)
Theorem Controller_init_succeeds_exactly_when (data : controller.Controller) :
  (controller.Controller_init data = Ok data ↔ controller.Controller_valid data) ∧
  (is_Raise (controller.Controller_init data) ↔ ¬ controller.Controller_valid data) ∧
  (∀ model, controller.Controller_init data = Ok model → model = data).
Proof.
  split; [apply Controller_init_Ok_iff|]. split.
  - rewrite <- Controller_init_Ok_iff.
    destruct (Controller_init_cases data) as [Hok|Hraise].
    + rewrite Hok. simpl. split; [done|]. intros Hn. by destruct Hn.
    + split; [|done]. intros _ Hok. rewrite Hok in Hraise. done.
  - intros model Hok. by apply Controller_init_Ok_inv in Hok as [-> _].
Qed.

(** The dictionary of a model, handed back to the constructor, gives the
    model again exactly when the model is valid; an invalid one, which
    assignment to a field can produce, is refused. *)
Theorem construct_dict_iff_valid :
  (∀ b : binds.Binds, ∃ items,
      utils.dict b = utils.YDict items ∧
      (utils.construct items = Ok b ↔ binds.Binds_valid b) ∧
      (¬ binds.Binds_valid b → is_Raise (utils.construct (Model := binds.Binds) items))) ∧
  (∀ c : controller.Controller, ∃ items,
      utils.dict c = utils.YDict items ∧
      (utils.construct items = Ok c ↔ controller.Controller_valid c) ∧
      (¬ controller.Controller_valid c →
       is_Raise (utils.construct (Model := controller.Controller) items))).
Proof.
  split.
  - intros b. destruct (Binds_read_dict b) as (items & Hdict & Hread).
    exists items. split; [done|]. simpl. unfold binds.Binds_construct, binds.Binds_construct_with. rewrite Hread.
    split; [apply Binds_init_Ok_iff|]. apply Binds_init_Raise_iff.
  - intros c. destruct (Controller_read_dict c) as (items & Hdict & Hread).
    exists items. split; [done|]. simpl. unfold controller.Controller_construct, controller.Controller_construct_with.
    rewrite Hread. split; [apply Controller_init_Ok_iff|].
    intros Hn. destruct (Controller_init_cases c) as [Hok|Hraise]; [|done].
    by apply Controller_init_Ok_iff in Hok.
Qed.

(** ** More on [find_duplicate] *)

Section find_duplicate_app_facts.
Import utils.
Context {A : Type} `{Countable A}.

Lemma find_duplicate_loop_app (seen : gset A) (l l' : list A) :
  find_duplicate_loop seen (l ++ l') =
    match find_duplicate_loop seen l with
    | Some v => Some v
    | None => find_duplicate_loop (list_to_set l ∪ seen) l'
    end.
Proof.
  revert seen. induction l as [|a l IH]; intros seen; simpl.
  - by rewrite (left_id_L ∅ (∪)).
  - destruct (decide (a ∈ seen)); [done|]. rewrite IH.
    destruct (find_duplicate_loop ({[a]} ∪ seen) l); [done|].
    f_equal. simpl. by rewrite (assoc_L (∪)), (comm_L (∪) (list_to_set l) {[a]}).
Qed.

End find_duplicate_app_facts.

(** Scanning a concatenation: a duplicate inside the first list is the
    result whatever follows it; when the first list has none, the result is
    the first value of the second list that occurs in the first list or
    earlier in the second. So [Binds] reports a repeated button id before it
    looks at the knob ids. *)
Theorem find_duplicate_app (A : Type) `{Countable A} (l l' : list A) :
  utils.find_duplicate (l ++ l') =
    match utils.find_duplicate l with
    | Some v => Some v
    | None => utils.find_duplicate_loop (list_to_set l) l'
    end.
Proof.
  unfold utils.find_duplicate. rewrite find_duplicate_loop_app.
  destruct (utils.find_duplicate_loop ∅ l); [done|].
  by rewrite (right_id_L ∅ (∪)).
Qed.

(** ** [load_all_from] *)

Section load_all_from_facts.
Import utils config.
Context `{Yaml}.
Context {Model : Type} `{YamlBaseModel Model}.

Lemma path_split (q : Path) : q ≠ [] → q = path_parent q ++ [path_name q].
Proof.
  intros Hq. destruct (exists_last Hq) as (l & a & ->).
  by rewrite path_parent_snoc, path_name_snoc.
Qed.

Lemma is_yaml_name_nonempty (name : string) : is_yaml_name name = true → name ≠ "".
Proof. by intros Hy ->. Qed.

Lemma elem_of_listdir (fs : filesystem) (directory : Path) (names : list string)
    (name : string) :
  listdir fs directory = Ok names →
  name ∈ names ↔
  ∃ q, is_Some (fs !! q) ∧ q ≠ [] ∧ path_parent q = directory ∧ path_name q = name.
Proof.
  intros Hls.
  assert (names =
    omap (λ entry : Path * node document,
            if decide (entry.1 ≠ [] ∧ path_parent entry.1 = directory)
            then Some (path_name entry.1) else None) (map_to_list fs)) as ->.
  { unfold listdir in Hls. destruct (fs !! directory) as [[|t]|]; simplify_eq; [done|].
    by destruct (decide (directory = [])); simplify_eq. }
  rewrite list_elem_of_omap. split.
  - intros ([q n] & Hin & Hsome). simpl in Hsome.
    destruct (decide (q ≠ [] ∧ path_parent q = directory)) as [[Hq Hpar]|]; [|done].
    simplify_eq. apply elem_of_map_to_list in Hin. exists q. by repeat split.
  - intros (q & [n Hn] & Hq & Hpar & Hname). exists (q, n). split.
    + by apply elem_of_map_to_list.
    + simpl. rewrite decide_True by done. by rewrite Hname.
Qed.



End load_all_from_facts.




(** A single file that cannot be loaded makes [load_all_from] fail as a
    whole: if a file with a YAML name lies in an existing directory of the
    list and [load_from] raises on it, [load_all_from] raises. *)
Theorem load_all_from_fails_on_bad_file `{utils.Yaml} {Model : Type}
    `{utils.YamlBaseModel Model}
    (directories : list config.Path) (fs : utils.filesystem) (p : config.Path) :
  utils.path_parent p ∈ directories →
  utils.path_exists fs (utils.path_parent p) = true →
  is_Some (fs !! p) → p ≠ [] →
  utils.is_yaml_name (utils.path_name p) = true →
  is_Raise (utils.load_from (Model := Model) p fs) →
  is_Raise (utils.load_all_from (Model := Model) directories fs).
Proof.
  intros Hin Hex Hp Hne Hy Hraise.
  destruct (utils.load_all_from directories fs) as [models|e] eqn:Hall; [|done].
  destruct (utils.load_from (Model := Model) p fs) as [model|e] eqn:Hload; [done|].
  exfalso.
  assert (Hclaim : ∀ d, d ∈ directories → utils.path_exists fs d = true →
                        utils.path_parent p = d → False); [|by eapply Hclaim].
  clear Hin Hex. revert models Hall.
  induction directories as [|d ds IH]; intros models Hall d' Hin Hex Hpar.
  - inversion Hin.
  - simpl in Hall. destruct (utils.path_exists fs d) eqn:Hexd.
    + destruct (utils.listdir fs d) as [names|e'] eqn:Hls; [|done].
      destruct (utils.load_files fs d names) as [ms|e'] eqn:Hfiles; [|done].
      destruct (utils.load_all_from ds fs) as [ms'|e']; [|done].
      apply elem_of_cons in Hin as [->|Hin]; [|by eapply (IH ms' eq_refl d')].
      assert (Hname : utils.path_name p ∈ names)
        by (apply (elem_of_listdir _ _ _ _ Hls); by exists p).
      clear Hls Hall. revert ms Hfiles.
      induction names as [|f names IHn]; intros ms Hfiles; [inversion Hname|].
      simpl in Hfiles. apply elem_of_cons in Hname as [<-|Hname].
      * rewrite Hy in Hfiles.
        rewrite (joinpath_snoc _ _ (is_yaml_name_nonempty _ Hy)), <- Hpar in Hfiles.
        rewrite <- (path_split p Hne), Hload in Hfiles. done.
      * repeat case_match; simplify_eq; by eapply IHn.
    + apply elem_of_cons in Hin as [->|Hin]; [congruence|].
      by eapply (IH models Hall d').
Qed.

Lemma load_all_from_fails_on_bad_file_witness :
  is_Raise (utils.load_all_from (H := fixtures.plain_yaml) (Model := binds.Binds)
              [["d"]] {[ ["d"] := utils.Dir; ["d"; "empty.yml"] := utils.File utils.YNull ]}).
Proof.
  apply (@load_all_from_fails_on_bad_file fixtures.plain_yaml binds.Binds _
           [["d"]] {[ ["d"] := utils.Dir; ["d"; "empty.yml"] := utils.File utils.YNull ]}
           ["d"; "empty.yml"]).
  - left.
  - vm_compute. reflexivity.
  - eexists. vm_compute. reflexivity.
  - discriminate.
  - vm_compute. reflexivity.
  - vm_compute. exact I.
Defined.

(** ** The error of a repeated id *)

(** When every field of the data is acceptable and only an id is repeated,
    the [ValidationError] of [Binds] carries a single error, at the root, and
    its message names the first repeated id of the button ids followed by the
    knob ids. *)
Theorem Binds_init_duplicate_error (data : binds.Binds) (duplicate : Z) :
  binds.name data ≠ "" →
  binds.app_name data ≠ "" →
  (∀ b, b ∈ binds.button_binds data → 0 ≤ binds.button_id b ≤ 127) →
  (∀ k, k ∈ binds.knob_binds data → 0 ≤ binds.knob_id k ≤ 127) →
  utils.find_duplicate (binds.bound_ids data) = Some duplicate →
  binds.Binds_init data =
    Raise (ValidationError
             [("__root__", "id=" +:+ pretty duplicate +:+ " was bound to multiple actions")]).
Proof.
  intros Hname Happ Hb Hk Hdup. unfold binds.Binds_init. cbv zeta.
  apply min_length_1 in Hname, Happ. rewrite Hname, Happ.
  rewrite (proj2 (button_binds_ok_spec _) Hb), (proj2 (knob_binds_ok_spec _) Hk).
  unfold binds.check_duplicate_ids. simpl.
  unfold binds.bound_ids in Hdup. rewrite Hdup. reflexivity.
Qed.

Lemma Binds_init_duplicate_error_witness :
  binds.Binds_init
    {| binds.name := "b"; binds.description := None; binds.app_name := "a";
       binds.controller_name := "c";
       binds.button_binds := [{| binds.button_id := 7; binds.action_id := "x" |}];
       binds.knob_binds :=
         [{| binds.knob_id := 7; binds.action_id_increase := None;
             binds.action_id_decrease := None |}] |} =
    Raise (ValidationError [("__root__", "id=7 was bound to multiple actions")]).
Proof.
  apply (Binds_init_duplicate_error
           {| binds.name := "b"; binds.description := None; binds.app_name := "a";
              binds.controller_name := "c";
              binds.button_binds := [{| binds.button_id := 7; binds.action_id := "x" |}];
              binds.knob_binds :=
                [{| binds.knob_id := 7; binds.action_id_increase := None;
                    binds.action_id_decrease := None |}] |} 7).
  - discriminate.
  - discriminate.
  - intros b Hb. apply list_elem_of_singleton in Hb. subst. simpl. lia.
  - intros k Hk. apply list_elem_of_singleton in Hk. subst. simpl. lia.
  - vm_compute. reflexivity.
Defined.

(** ** A path without a file name *)

Section nameless_facts.
Import utils config.
Context `{Yaml}.
Variable uuid1 : nat → string.

Lemma free_path_parent (fuel : nat) (fs : filesystem) (p p' : Path) (k : nat) :
  free_path uuid1 fuel fs p k = Some (Ok p') → path_parent p' = path_parent p.
Proof.
  revert p k. induction fuel as [|fuel IH]; intros p k; simpl;
    destruct (path_exists fs p); try done.
  - intros Heq. by simplify_eq.
  - unfold with_stem, with_name. destruct (decide (path_name p = "")); [done|].
    intros Hfree. apply IH in Hfree. by rewrite path_parent_snoc in Hfree.
  - intros Heq. by simplify_eq.
Qed.

End nameless_facts.

(** For a [path] without a final component ([path.name] is empty) the
    candidate is the directory itself: a path [save_copy_to] returns then lies
    beside [new_dir], in its parent, and not inside it. *)
Theorem save_copy_to_nameless_path `{utils.Yaml}
    (is_subpath : config.Path → config.Path → bool) (Config : config.Config)
    (uuid1 : nat → string) {Model : Type} `{utils.YamlBaseModel Model}
    (self : Model) (path new_dir new_path : config.Path) (fs fs' : utils.filesystem) :
  utils.path_name path = "" →
  utils.save_copy_to is_subpath Config uuid1 self path new_dir fs = (Ok new_path, fs') →
  utils.path_parent new_path = utils.path_parent new_dir.
Proof.
  intros Hname. unfold utils.save_copy_to, mbind, M_bind, bind, get, utils.joinpath.
  rewrite Hname, decide_True by done.
  destruct (utils.free_path uuid1 (S (size fs)) fs new_dir 0) as [[p|e]|] eqn:Hfree;
    try done.
  apply free_path_parent in Hfree.
  destruct (utils.save_to is_subpath Config self p fs) as [[[]|e] fs1];
    unfold ret; simpl; intros Heq; by simplify_eq.
Qed.

Lemma save_copy_to_nameless_path_witness :
  utils.path_parent
    (match fst (utils.save_copy_to (H := fixtures.plain_yaml) fixtures.is_subpath
                  fixtures.directories (λ k, pretty k) fixtures.binds
                  [] ["home"; "copies"] {[ ["home"; "copies"] := utils.Dir ]}) with
     | Ok new_path => new_path
     | Raise _ => []
     end) = ["home"].
Proof.
  assert (Hfst :
    fst (utils.save_copy_to (H := fixtures.plain_yaml) fixtures.is_subpath
           fixtures.directories (λ k, pretty k) fixtures.binds
           [] ["home"; "copies"] {[ ["home"; "copies"] := utils.Dir ]})
    = Ok ["home"; "copies 0"]) by (vm_compute; reflexivity).
  destruct (utils.save_copy_to (H := fixtures.plain_yaml) fixtures.is_subpath
              fixtures.directories (λ k, pretty k) fixtures.binds
              [] ["home"; "copies"] {[ ["home"; "copies"] := utils.Dir ]})
    as [r fs'] eqn:Hcall.
  simpl in Hfst. subst r. simpl.
  exact (@save_copy_to_nameless_path fixtures.plain_yaml fixtures.is_subpath
           fixtures.directories (λ k, pretty k) _ _ fixtures.binds
           [] ["home"; "copies"] ["home"; "copies 0"] _ fs' eq_refl Hcall).
Defined.

